(** * BusTub buffer pool: clock replacer and buffer pool manager

    A shallow embedding of [src/buffer/clock_replacer.cpp] and
    [src/buffer/buffer_pool_manager.cpp].  Integers of the C++ ([int],
    [frame_id_t], [page_id_t]) are [Z]; [std::vector] is [list] indexed
    by [Z]; [std::unordered_map] is [gmap]; [std::unordered_set] is
    [gset]; [std::list] is [list].  Every operation returns an
    [outcome]: the C++ has executions with undefined behaviour (erasing
    the end iterator, indexing out of range, [front()] of an empty
    list) and a sweep loop that need not terminate, and both are kept
    visible instead of being given a made-up result. *)

From stdpp Require Import gmap list.
From Stdlib Require Import ZArith Lia.

Local Open Scope Z_scope.

(** ** Outcomes of a C++ call *)

Inductive outcome (A : Type) : Type :=
| Ok (a : A)
| Undefined
| OutOfFuel.

Arguments Ok {A} a.
Arguments Undefined {A}.
Arguments OutOfFuel {A}.

#[global] Instance outcome_ret : MRet outcome := @Ok.
#[global] Instance outcome_fmap : FMap outcome := λ A B f m,
  match m with
  | Ok a => Ok (f a)
  | Undefined => Undefined
  | OutOfFuel => OutOfFuel
  end.
#[global] Instance outcome_bind : MBind outcome := λ A B f m,
  match m with
  | Ok a => f a
  | Undefined => Undefined
  | OutOfFuel => OutOfFuel
  end.

(** [v[i]] on a [std::vector] or a raw array: out of range is undefined. *)
Definition at_ {A : Type} (v : list A) (i : Z) : outcome A :=
  if 0 <=? i then
    match v !! Z.to_nat i with
    | Some x => Ok x
    | None => Undefined
    end
  else Undefined.

(** [v[i] = x]. *)
Definition set_at {A : Type} (v : list A) (i : Z) (x : A) : outcome (list A) :=
  if (0 <=? i) && (i <? Z.of_nat (length v)) then Ok (<[Z.to_nat i := x]> v)
  else Undefined.

Definition INT_MAX : Z := 2147483647.

(** ** clock_replacer.cpp *)

Module ClockReplacer.

Record t : Type := mk {
  capacity : Z;
  cur_size : Z;
  clock_hand : Z;
  buckets : list Z;
  ref_bits : list Z;
  map : gmap Z Z;
  recent_pinned : gset Z
}.

(** [ClockReplacer::ClockReplacer(num_pages)]. *)
Definition new (num_pages : nat) : t :=
  {| capacity := Z.of_nat num_pages;
     cur_size := 0;
     clock_hand := 0;
     buckets := replicate num_pages (-1);
     ref_bits := replicate num_pages (-1);
     map := ∅;
     recent_pinned := ∅ |}.

Definition set_clock_hand (h : Z) (r : t) : t :=
  mk (capacity r) (cur_size r) h (buckets r) (ref_bits r) (map r) (recent_pinned r).

Definition set_ref_bits (rb : list Z) (r : t) : t :=
  mk (capacity r) (cur_size r) (clock_hand r) (buckets r) rb (map r) (recent_pinned r).

(** The scan of lines 58-63: the smallest id among the buckets that are
    not [-1], starting from [INT_MAX]. *)
Fixpoint smallest_from (bs : list Z) (i : Z) (n : nat) (smallest : Z) : outcome Z :=
  match n with
  | O => Ok smallest
  | S n' =>
      b ← at_ bs i;
      smallest_from bs (i + 1) n'
        (if negb (b =? -1) && (b <? smallest) then b else smallest)
  end.

(** Lines 57-68: taken when the sweep ends without a victim. *)
Definition Victim_fallback (r : t) : outcome (t * option Z) :=
  smallest_frame_id ← smallest_from (buckets r) 0 (Z.to_nat (capacity r)) INT_MAX;
  match map r !! smallest_frame_id with
  | None => Undefined
  | Some _ =>
      Ok (mk (capacity r) (cur_size r - 1) (clock_hand r) (buckets r) (ref_bits r)
             (delete smallest_frame_id (map r)) (recent_pinned r),
          Some smallest_frame_id)
  end.

(** The [while] loop of lines 31-55; one unit of fuel per iteration. *)
Fixpoint Victim_loop (fuel : nat) (r : t) (sweep_cnt : Z) : outcome (t * option Z) :=
  if sweep_cnt <? cur_size r then
    match fuel with
    | O => OutOfFuel
    | S fuel' =>
        if capacity r =? 0 then Undefined else
        let hand := Z.rem (clock_hand r) (capacity r) in
        b ← at_ (buckets r) hand;
        if (b =? -1) || bool_decide (b ∈ recent_pinned r) then
          Victim_loop fuel' (set_clock_hand (hand + 1) r) sweep_cnt
        else
          rb ← at_ (ref_bits r) hand;
          if rb =? 1 then
            ref_bits' ← set_at (ref_bits r) hand 0;
            Victim_loop fuel' (set_clock_hand (hand + 1) (set_ref_bits ref_bits' r))
                        (sweep_cnt + 1)
          else
            buckets' ← set_at (buckets r) hand (-1);
            match map r !! b with
            | None => Undefined
            | Some _ =>
                Ok (mk (capacity r) (cur_size r - 1) (hand + 1) buckets' (ref_bits r)
                       (delete b (map r)) (recent_pinned r),
                    Some b)
            end
    end
  else Victim_fallback r.

(** [ClockReplacer::Victim]: [Some f] is [true] with [*frame_id = f],
    [None] is [false] with [*frame_id] left alone. *)
Definition Victim (fuel : nat) (r : t) : outcome (t * option Z) :=
  if cur_size r =? 0 then Ok (r, None) else Victim_loop fuel r 0.

(** [ClockReplacer::Pin]. *)
Definition Pin (frame_id : Z) (r : t) : t :=
  match map r !! frame_id with
  | None => r
  | Some _ =>
      mk (capacity r) (cur_size r - 1) (clock_hand r) (buckets r) (ref_bits r)
         (map r) ({[frame_id]} ∪ recent_pinned r)
  end.

(** [ClockReplacer::find_next_available], the loop from index [i]. *)
Fixpoint find_next_available_from (r : t) (start i : Z) (n : nat) : outcome Z :=
  match n with
  | O => Ok (-1)
  | S n' =>
      let cur_slot := Z.rem (i + start) (capacity r) in
      b ← at_ (buckets r) cur_slot;
      if b =? -1 then Ok cur_slot
      else if bool_decide (b ∈ recent_pinned r) then Ok cur_slot
      else find_next_available_from r start (i + 1) n'
  end.

Definition find_next_available (r : t) (start : Z) : outcome Z :=
  find_next_available_from r start 0 (Z.to_nat (capacity r)).

(** [ClockReplacer::Unpin]. *)
Definition Unpin (frame_id : Z) (r : t) : outcome t :=
  if capacity r <? frame_id then Ok r else
  match map r !! frame_id with
  | None =>
      slot ← find_next_available r (clock_hand r);
      buckets' ← set_at (buckets r) slot frame_id;
      ref_bits' ← set_at (ref_bits r) slot 0;
      Ok (mk (capacity r) (cur_size r + 1) (clock_hand r) buckets' ref_bits'
             (<[frame_id := slot]> (map r)) (recent_pinned r))
  | Some slot =>
      if bool_decide (frame_id ∈ recent_pinned r) then
        ref_bits' ← set_at (ref_bits r) slot 1;
        Ok (mk (capacity r) (cur_size r + 1) (clock_hand r) (buckets r) ref_bits'
               (map r) (recent_pinned r ∖ {[frame_id]}))
      else Ok r
  end.

(** [ClockReplacer::Size]: [cur_size] returned as [size_t]. *)
Definition Size (r : t) : Z := cur_size r mod 2 ^ 64.

(** The eligible set: a frame is eligible when [map] places it in a
    slot, the bucket of that slot holds it, and it is not tombstoned
    ([recent_pinned]).  These are the frames a sweep of [Victim] can
    reach and return. *)
Definition eligible (r : t) (frame_id : Z) : bool :=
  match map r !! frame_id with
  | Some slot =>
      (0 <=? slot)
      && bool_decide (buckets r !! Z.to_nat slot = Some frame_id)
      && bool_decide (frame_id ∉ recent_pinned r)
  | None => false
  end.

End ClockReplacer.

(** ** Collaborators whose sources are not among the files *)

(** Modelled from the spec: the reserved sentinel that denotes "no page"
    ([INVALID_PAGE_ID] of common/config.h, which is not among the
    sources); the code itself uses [-1] as the "no frame" value. *)
Definition INVALID_PAGE_ID : Z := -1.

(** Modelled from the spec: the fixed size of a frame's byte buffer
    ([PAGE_SIZE] of common/config.h).  No statement below depends on
    the value. *)
Definition PAGE_SIZE : nat := 4096.

(** Modelled from the spec: a frame is a fixed-size byte buffer plus
    the bound page id (sentinel when unbound), the pin count and the
    dirty flag (page.h is not among the sources). *)
Record Page : Type := mkPage {
  data_ : list Z;
  page_id_ : Z;
  pin_count_ : Z;
  is_dirty_ : bool
}.

Definition zero_bytes : list Z := replicate PAGE_SIZE 0.

(** A frame as the pool's constructor leaves it. *)
Definition fresh_page : Page := mkPage zero_bytes INVALID_PAGE_ID 0 false.

Inductive disk_event : Type :=
| AllocatePage (page_id : Z)
| DeallocatePage (page_id : Z)
| ReadPage (page_id : Z)
| WritePage (page_id : Z) (bytes : list Z).

(** Modelled from the spec: the disk collaborator, a synchronous
    fixed-size-record store keyed by page id with a monotonic page id
    allocator (disk_manager.h is not among the sources).  [events]
    records the calls in the order they are made; a page that was never
    written reads as zero bytes. *)
Record DiskManager : Type := mkDisk {
  next_page_id : Z;
  contents : gmap Z (list Z);
  events : list disk_event
}.

Module Disk.

Definition new : DiskManager := mkDisk 0 ∅ [].

Definition Allocate (d : DiskManager) : DiskManager * Z :=
  (mkDisk (next_page_id d + 1) (contents d) (events d ++ [AllocatePage (next_page_id d)]),
   next_page_id d).

Definition Write (page_id : Z) (bytes : list Z) (d : DiskManager) : DiskManager :=
  mkDisk (next_page_id d) (<[page_id := bytes]> (contents d))
         (events d ++ [WritePage page_id bytes]).

Definition Read (page_id : Z) (d : DiskManager) : DiskManager * list Z :=
  (mkDisk (next_page_id d) (contents d) (events d ++ [ReadPage page_id]),
   default zero_bytes (contents d !! page_id)).

(** The write calls among the events. *)
Definition writes (d : DiskManager) : list (Z * list Z) :=
  omap (λ e, match e with WritePage p b => Some (p, b) | _ => None end) (events d).

Definition deallocations (d : DiskManager) : list Z :=
  omap (λ e, match e with DeallocatePage p => Some p | _ => None end) (events d).

End Disk.

(** ** buffer_pool_manager.cpp *)

Module BufferPoolManager.

Record t : Type := mk {
  pool_size_ : Z;
  pages_ : list Page;
  replacer_ : ClockReplacer.t;
  free_list_ : list Z;
  page_table_ : gmap Z Z;
  cur_size_ : Z;
  disk_manager_ : DiskManager
}.

(** [BufferPoolManager::BufferPoolManager(pool_size, disk_manager, _)]. *)
Definition new (pool_size : nat) (disk_manager : DiskManager) : t :=
  {| pool_size_ := Z.of_nat pool_size;
     pages_ := replicate pool_size fresh_page;
     replacer_ := ClockReplacer.new pool_size;
     free_list_ := Z.of_nat <$> seq 0 pool_size;
     page_table_ := ∅;
     cur_size_ := 0;
     disk_manager_ := disk_manager |}.

Definition set_pages (ps : list Page) (s : t) : t :=
  mk (pool_size_ s) ps (replacer_ s) (free_list_ s) (page_table_ s) (cur_size_ s)
     (disk_manager_ s).

Definition set_replacer (r : ClockReplacer.t) (s : t) : t :=
  mk (pool_size_ s) (pages_ s) r (free_list_ s) (page_table_ s) (cur_size_ s)
     (disk_manager_ s).

Definition set_free_list (l : list Z) (s : t) : t :=
  mk (pool_size_ s) (pages_ s) (replacer_ s) l (page_table_ s) (cur_size_ s)
     (disk_manager_ s).

Definition set_page_table (pt : gmap Z Z) (s : t) : t :=
  mk (pool_size_ s) (pages_ s) (replacer_ s) (free_list_ s) pt (cur_size_ s)
     (disk_manager_ s).

Definition set_cur_size (n : Z) (s : t) : t :=
  mk (pool_size_ s) (pages_ s) (replacer_ s) (free_list_ s) (page_table_ s) n
     (disk_manager_ s).

Definition set_disk (d : DiskManager) (s : t) : t :=
  mk (pool_size_ s) (pages_ s) (replacer_ s) (free_list_ s) (page_table_ s) (cur_size_ s) d.

(** [cur_size_] is compared with the [size_t] [pool_size_]: the
    comparison is made on the value modulo 2^64, whether the member
    (declared in buffer_pool_manager.h, not among the sources) is an
    [int] or a [size_t]. *)
Definition as_size_t (n : Z) : Z := n mod 2 ^ 64.

(** [page_table_.erase(page_table_.find(page_id))]: erasing the end
    iterator is undefined. *)
Definition erase_found (page_id : Z) (s : t) : outcome t :=
  match page_table_ s !! page_id with
  | None => Undefined
  | Some _ => Ok (set_page_table (delete page_id (page_table_ s)) s)
  end.

(** [BufferPoolManager::FlushPageImpl]. *)
Definition FlushPageImpl (page_id : Z) (s : t) : outcome (t * bool) :=
  match page_table_ s !! page_id with
  | None => Ok (s, false)
  | Some frame_id =>
      p ← at_ (pages_ s) frame_id;
      Ok (set_disk (Disk.Write page_id (data_ p) (disk_manager_ s)) s, true)
  end.

(** [BufferPoolManager::update_page_metadata]. *)
Definition update_page_metadata (frame_id page_id : Z) (s : t) : outcome t :=
  let s := set_page_table (<[page_id := frame_id]> (page_table_ s)) s in
  pages' ← set_at (pages_ s) frame_id (mkPage zero_bytes page_id 1 false);
  Ok (set_replacer (ClockReplacer.Pin frame_id (replacer_ s)) (set_pages pages' s)).

(** [BufferPoolManager::reset_page_metadata]. *)
Definition reset_page_metadata (frame_id : Z) (s : t) : outcome t :=
  pages' ← set_at (pages_ s) frame_id (mkPage zero_bytes INVALID_PAGE_ID 0 false);
  Ok (set_pages pages' s).

(** [BufferPoolManager::FetchPageImpl]; the result is the index of the
    returned frame, [None] for [nullptr]. *)
Definition FetchPageImpl (fuel : nat) (page_id : Z) (s : t) : outcome (t * option Z) :=
  match page_table_ s !! page_id with
  | Some frame_id =>
      p ← at_ (pages_ s) frame_id;
      pages' ← set_at (pages_ s) frame_id
                 (mkPage (data_ p) (page_id_ p) (pin_count_ p + 1) (is_dirty_ p));
      Ok (set_pages pages' s, Some frame_id)
  | None =>
      '(s, replace_frame_id) ←
        match free_list_ s with
        | f :: rest => Ok (set_free_list rest s, f)
        | [] =>
            '(r, v) ← ClockReplacer.Victim fuel (replacer_ s);
            Ok (set_replacer r s, default (-1) v)
        end;
      if replace_frame_id =? -1 then Ok (s, None) else
      p ← at_ (pages_ s) replace_frame_id;
      let replace_page_id := page_id_ p in
      '(s, _) ← (if is_dirty_ p then FlushPageImpl replace_page_id s else Ok (s, false));
      s ← erase_found replace_page_id s;
      let s := set_page_table (<[page_id := replace_frame_id]> (page_table_ s)) s in
      s ← update_page_metadata replace_frame_id page_id s;
      let '(d, bytes) := Disk.Read page_id (disk_manager_ s) in
      p ← at_ (pages_ s) replace_frame_id;
      pages' ← set_at (pages_ s) replace_frame_id
                 (mkPage bytes (page_id_ p) (pin_count_ p) (is_dirty_ p));
      Ok (set_disk d (set_pages pages' s), Some replace_frame_id)
  end.

(** [BufferPoolManager::UnpinPageImpl]. *)
Definition UnpinPageImpl (page_id : Z) (is_dirty : bool) (s : t) : outcome (t * bool) :=
  if page_id =? INVALID_PAGE_ID then Ok (s, false) else
  match page_table_ s !! page_id with
  | None => Ok (s, false)
  | Some frame_id =>
      p ← at_ (pages_ s) frame_id;
      let pin_count := pin_count_ p - 1 in
      pages' ← set_at (pages_ s) frame_id
                 (mkPage (data_ p) (page_id_ p) pin_count (is_dirty_ p));
      let s := set_pages pages' s in
      s ← (if pin_count =? 0 then
             r ← ClockReplacer.Unpin frame_id (replacer_ s);
             Ok (set_free_list (free_list_ s ++ [frame_id]) (set_replacer r s))
           else Ok s);
      let dirty := is_dirty_ p || is_dirty in
      pages' ← set_at (pages_ s) frame_id (mkPage (data_ p) (page_id_ p) pin_count dirty);
      let s := set_pages pages' s in
      '(s, _) ← (if dirty then FlushPageImpl page_id s else Ok (s, false));
      Ok (s, true)
  end.

(** [BufferPoolManager::NewPageImpl]; the result is the page id stored
    through the out parameter and the index of the returned frame,
    [None] for [nullptr]. *)
Definition NewPageImpl (fuel : nat) (s : t) : outcome (t * option (Z * Z)) :=
  let frame_id_tmp := 0 in
  '(s, frame_id_tmp, full) ←
    (if (as_size_t (cur_size_ s) =? pool_size_ s) && bool_decide (free_list_ s = []) then
       '(r, v) ← ClockReplacer.Victim fuel (replacer_ s);
       Ok (set_replacer r s, default frame_id_tmp v, negb (bool_decide (is_Some v)))
     else Ok (s, frame_id_tmp, false));
  if full : bool then Ok (s, None) else
  let '(d, new_page_id) := Disk.Allocate (disk_manager_ s) in
  let s := set_disk d s in
  if as_size_t (cur_size_ s) <? pool_size_ s then
    match free_list_ s with
    | [] => Undefined
    | frame_id_tmp :: rest =>
        s ← update_page_metadata frame_id_tmp new_page_id (set_free_list rest s);
        Ok (set_cur_size (cur_size_ s + 1) s, Some (new_page_id, frame_id_tmp))
    end
  else if as_size_t (cur_size_ s) =? pool_size_ s then
    '(s, frame_id_tmp) ←
      match free_list_ s with
      | f :: rest => Ok (set_free_list rest s, f)
      | [] =>
          '(r, v) ← ClockReplacer.Victim fuel (replacer_ s);
          Ok (set_replacer r s, default frame_id_tmp v)
      end;
    p ← at_ (pages_ s) frame_id_tmp;
    let evict_page_id := page_id_ p in
    s ← erase_found evict_page_id s;
    s ← update_page_metadata frame_id_tmp new_page_id s;
    Ok (s, Some (new_page_id, frame_id_tmp))
  else Ok (s, Some (new_page_id, frame_id_tmp)).

(** [BufferPoolManager::DeletePageImpl].  After the erase,
    [page_table_[page_id]] is [operator[]] on an absent key: it inserts
    the key with the value [0] and yields that [0]. *)
Definition DeletePageImpl (page_id : Z) (s : t) : outcome (t * bool) :=
  match page_table_ s !! page_id with
  | None => Ok (s, true)
  | Some frame_id =>
      p ← at_ (pages_ s) frame_id;
      if negb (pin_count_ p =? 0) then Ok (s, false) else
      s ← erase_found page_id s;
      let s := set_cur_size (cur_size_ s - 1) s in
      let s := set_page_table (<[page_id := 0]> (page_table_ s)) s in
      let s := set_free_list (free_list_ s ++ [0]) s in
      s ← reset_page_metadata frame_id s;
      Ok (s, true)
  end.

End BufferPoolManager.

(** ** Call sequences on a pool *)

Inductive call : Type :=
| NewPage
| FetchPage (page_id : Z)
| UnpinPage (page_id : Z) (is_dirty : bool)
| FlushPage (page_id : Z)
| DeletePage (page_id : Z).

(** One call of the public API; the returned value is dropped. *)
Definition step (fuel : nat) (c : call) (s : BufferPoolManager.t)
  : outcome BufferPoolManager.t :=
  match c with
  | NewPage => fst <$> BufferPoolManager.NewPageImpl fuel s
  | FetchPage p => fst <$> BufferPoolManager.FetchPageImpl fuel p s
  | UnpinPage p d => fst <$> BufferPoolManager.UnpinPageImpl p d s
  | FlushPage p => fst <$> BufferPoolManager.FlushPageImpl p s
  | DeletePage p => fst <$> BufferPoolManager.DeletePageImpl p s
  end.

Fixpoint run (fuel : nat) (cs : list call) (s : BufferPoolManager.t)
  : outcome BufferPoolManager.t :=
  match cs with
  | [] => Ok s
  | c :: cs' => s' ← step fuel c s; run fuel cs' s'
  end.


(** The frame id is the value of some page-table entry. *)
Definition bound (s : BufferPoolManager.t) (frame_id : Z) : Prop :=
  ∃ page_id, BufferPoolManager.page_table_ s !! page_id = Some frame_id.

(** The header of a frame: bound page id, pin count and dirty flag. *)
Definition frame_header (s : BufferPoolManager.t) (frame_id : nat) : option (Z * Z * bool) :=
  (λ p, (page_id_ p, pin_count_ p, is_dirty_ p)) <$> BufferPoolManager.pages_ s !! frame_id.

(** The two calls that bind a frame, with the index of the frame they
    return ([None] for [nullptr]). *)
Definition bind_frame (fuel : nat) (c : call) (s : BufferPoolManager.t)
  : outcome (BufferPoolManager.t * option Z) :=
  match c with
  | NewPage =>
      match BufferPoolManager.NewPageImpl fuel s with
      | Ok (s', Some (_, frame_id)) => Ok (s', Some frame_id)
      | Ok (s', None) => Ok (s', None)
      | Undefined => Undefined
      | OutOfFuel => OutOfFuel
      end
  | FetchPage p => BufferPoolManager.FetchPageImpl fuel p s
  | _ => Ok (s, None)
  end.

(** The call is a new, or a fetch of a page id that is not resident. *)
Definition on_fresh_page (c : call) (s : BufferPoolManager.t) : bool :=
  match c with
  | NewPage => true
  | FetchPage p => bool_decide (BufferPoolManager.page_table_ s !! p = None)
  | _ => false
  end.

(** A sequence of new/fetch calls on distinct page ids, every one of
    which returns a frame; the result is the state after the last. *)
Fixpoint fill (fuel : nat) (cs : list call) (s : BufferPoolManager.t)
  : option BufferPoolManager.t :=
  match cs with
  | [] => Some s
  | c :: cs' =>
      if on_fresh_page c s then
        match bind_frame fuel c s with
        | Ok (s', Some _) => fill fuel cs' s'
        | _ => None
        end
      else None
  end.

(** The state of a pool of size [N] in which the first [k] frames have
    been bound by [k] calls and nothing was ever unpinned. *)
Record filled (N k : nat) (s : BufferPoolManager.t) : Prop := {
  filled_le : (k ≤ N)%nat;
  filled_pool_size : BufferPoolManager.pool_size_ s = Z.of_nat N;
  filled_cur_size : BufferPoolManager.cur_size_ s = Z.of_nat k;
  filled_free_list : BufferPoolManager.free_list_ s = Z.of_nat <$> seq k (N - k);
  filled_pages_length : length (BufferPoolManager.pages_ s) = N;
  filled_fresh : ∀ i, (k ≤ i < N)%nat → BufferPoolManager.pages_ s !! i = Some fresh_page;
  filled_sentinel : BufferPoolManager.page_table_ s !! INVALID_PAGE_ID = None;
  filled_replacer : BufferPoolManager.replacer_ s = ClockReplacer.new N;
  filled_next : 0 ≤ next_page_id (BufferPoolManager.disk_manager_ s)
}.

(** The frame id is in the free list or bound in the page table, and
    not both. *)
Definition free_xor_bound (s : BufferPoolManager.t) (frame_id : Z) : Prop :=
  (frame_id ∈ BufferPoolManager.free_list_ s ∨ bound s frame_id)
  ∧ ¬ (frame_id ∈ BufferPoolManager.free_list_ s ∧ bound s frame_id).

(** A pool of two frames: page 3 in frame 0, pinned once; frame 1 never
    bound. *)
Definition unpin_example_page : Page := mkPage [1; 2] 3 1 false.

Definition unpin_example : BufferPoolManager.t :=
  BufferPoolManager.mk 2 [unpin_example_page; fresh_page] (ClockReplacer.new 2) [1]
    {[3 := 0]} 1 Disk.new.

(** The replacer of [unpin_example] once frame 0 has been unpinned. *)
Definition unpin_example_replacer : ClockReplacer.t :=
  ClockReplacer.mk 2 1 0 [0; -1] [0; -1] {[0 := 0]} ∅.

(** The calls of a pool of size 2 in which unpinning page 1 reuses the
    slot of the tombstoned frame 0 before page 7, bound to frame 0, is
    unpinned. *)
Definition slot_reuse_calls : list call :=
  [NewPage; NewPage; UnpinPage 0 false; FetchPage 7; UnpinPage 1 false; UnpinPage 7 false].

(** The replacer after [slot_reuse_calls] and after one more victim(). *)
Definition slot_reuse_after_victim : outcome (option Z * ClockReplacer.t) :=
  s ← run 0 slot_reuse_calls (BufferPoolManager.new 2 Disk.new);
  x ← ClockReplacer.Victim 3 (BufferPoolManager.replacer_ s);
  Ok (x.2, x.1).



(** ** Replacer scenarios *)

Section replacer_scenarios.
Import ClockReplacer.

(** The sequence [unpin(A); unpin(B); pin(A); unpin(A)] on an empty
    replacer of capacity 3. *)
Definition second_chance_setup (A B : Z) : outcome ClockReplacer.t :=
  r ← Unpin A (new 3);
  r ← Unpin B r;
  Unpin A (Pin A r).

(** Frames 0, 1, 2 unpinned, all three pinned again, then 1 and 2
    unpinned: 0 is a tombstone, 1 and 2 carry reference bit 1. *)
Definition all_referenced_setup : outcome ClockReplacer.t :=
  r ← Unpin 0 (new 3);
  r ← Unpin 1 r;
  r ← Unpin 2 r;
  r ← Unpin 1 (Pin 2 (Pin 1 (Pin 0 r)));
  Unpin 2 r.

(** Frames 0 and 1 unpinned, pinned again and unpinned again: both are
    eligible with reference bit 1 and there is no tombstone. *)
Definition both_referenced_setup : outcome ClockReplacer.t :=
  r ← Unpin 0 (new 3);
  r ← Unpin 1 r;
  r ← Unpin 0 (Pin 1 (Pin 0 r));
  Unpin 1 r.

(** The reference bit of the slot that [map] gives for a frame. *)
Definition ref_bit_of (r : ClockReplacer.t) (frame_id : Z) : option Z :=
  slot ← map r !! frame_id; ref_bits r !! Z.to_nat slot.

End replacer_scenarios.

(** ** The rest of the two files, and predicates for their properties *)

(** The test [ClockReplacer::Unpin] makes for "already in the replacer
    and not recently pinned": the frame is a key of [map] and is not in
    [recent_pinned]. *)
Definition held (r : ClockReplacer.t) (frame_id : Z) : Prop :=
  is_Some (ClockReplacer.map r !! frame_id) ∧ frame_id ∉ ClockReplacer.recent_pinned r.

(** The vectors of the replacer have the size its constructor gave
    them. *)
Definition ring_shaped (r : ClockReplacer.t) : Prop :=
  Z.of_nat (length (ClockReplacer.buckets r)) = ClockReplacer.capacity r
  ∧ Z.of_nat (length (ClockReplacer.ref_bits r)) = ClockReplacer.capacity r.

(** The number of iterations the sweep of [Victim] can still make before
    it stands on slot [j] with that slot's reference bit cleared: the
    distance from the hand to [j] around the ring, plus one full turn
    while the bit of [j] is still 1. *)
Definition sweep_potential (r : ClockReplacer.t) (j : nat) : Z :=
  (Z.of_nat j - ClockReplacer.clock_hand r) mod ClockReplacer.capacity r
  + (if bool_decide (ClockReplacer.ref_bits r !! j = Some 1)
     then ClockReplacer.capacity r else 0).

(** What a returning victim() has done, whether the sweep or the
    fallback chose the frame. *)
Definition evicted (r r' : ClockReplacer.t) (v : option Z) : Prop :=
  ∃ f, v = Some f ∧ f ≠ -1 ∧ is_Some (ClockReplacer.map r !! f)
       ∧ ClockReplacer.map r' = delete f (ClockReplacer.map r)
       ∧ ClockReplacer.cur_size r' = ClockReplacer.cur_size r - 1
       ∧ ClockReplacer.recent_pinned r' = ClockReplacer.recent_pinned r
       ∧ ClockReplacer.capacity r' = ClockReplacer.capacity r
       ∧ length (ClockReplacer.buckets r') = length (ClockReplacer.buckets r)
       ∧ length (ClockReplacer.ref_bits r') = length (ClockReplacer.ref_bits r).



(** A replacer of capacity 1 that holds frame 0 with reference bit 0,
    and the same replacer once frame 0 has been evicted. *)
Definition one_frame_replacer : ClockReplacer.t :=
  ClockReplacer.mk 1 1 0 [0] [0] {[0 := 0]} ∅.

Definition one_frame_evicted : ClockReplacer.t :=
  ClockReplacer.mk 1 0 1 [-1] [0] (delete 0 {[0 := 0]}) ∅.

(** A pool of one frame: page 3 in frame 0, unpinned, on the free list
    and held by the replacer; the disk holds bytes for page 7. *)
Definition fetch_example : BufferPoolManager.t :=
  BufferPoolManager.mk 1 [mkPage [1; 2] 3 0 false] one_frame_replacer [0] {[3 := 0]} 1
    (Disk.Write 7 [9; 9] Disk.new).

(** A pool of one frame with page 3 pinned in it and nothing free. *)
Definition pinned_example : BufferPoolManager.t :=
  BufferPoolManager.mk 1 [mkPage [1; 2] 3 1 false] (ClockReplacer.new 1) [] {[3 := 0]} 1
    Disk.new.

(** [BufferPoolManager::FlushAllPagesImpl].  The range-for over
    [page_table_] visits every entry once, in an order that
    [std::unordered_map] leaves open; [order] is the list of keys in the
    order of the visit. *)
Fixpoint FlushAllPagesImpl (order : list Z) (s : BufferPoolManager.t)
  : outcome BufferPoolManager.t :=
  match order with
  | [] => Ok s
  | page_id :: rest =>
      x ← BufferPoolManager.FlushPageImpl page_id s;
      FlushAllPagesImpl rest x.1
  end.

(** [order] is an order in which the entries of the page table can be
    visited: every key once. *)
Definition iteration_order (s : BufferPoolManager.t) (order : list Z) : Prop :=
  order ≡ₚ (map_to_list (BufferPoolManager.page_table_ s)).*1.

(** Every frame the replacer holds untombstoned is on the free list. *)
Definition free_list_covers_held (s : BufferPoolManager.t) : Prop :=
  ∀ frame_id, held (BufferPoolManager.replacer_ s) frame_id →
              frame_id ∈ BufferPoolManager.free_list_ s.

(** A run of Unpin calls on the replacer, one per frame of the list. *)
Fixpoint Unpin_all (frames : list Z) (r : ClockReplacer.t) : outcome ClockReplacer.t :=
  match frames with
  | [] => Ok r
  | f :: rest => r' ← ClockReplacer.Unpin f r; Unpin_all rest r'
  end.

(** The replacer while only Unpin has been called since its
    construction and [first] was the first frame unpinned: the hand is
    at slot 0, nothing is tombstoned, and slot 0 holds [first] with
    reference bit 0. *)
Definition first_in_ring (first : Z) (r : ClockReplacer.t) : Prop :=
  ClockReplacer.clock_hand r = 0
  ∧ ClockReplacer.recent_pinned r = ∅
  ∧ 0 < ClockReplacer.capacity r
  ∧ 0 < ClockReplacer.cur_size r
  ∧ ClockReplacer.buckets r !! 0%nat = Some first
  ∧ ClockReplacer.ref_bits r !! 0%nat = Some 0
  ∧ is_Some (ClockReplacer.map r !! first).

(** A pool of one frame: page 3 in frame 0, unpinned and dirty. *)
Definition delete_example : BufferPoolManager.t :=
  BufferPoolManager.mk 1 [mkPage [1; 2] 3 0 true] one_frame_replacer [0] {[3 := 0]} 1
    Disk.new.

(** No value of the page table is -1, the value that stands for "no
    frame". *)
Definition binds_frames (page_table : gmap Z Z) : Prop :=
  ∀ page_id frame_id, page_table !! page_id = Some frame_id → frame_id ≠ -1.

(** The bookkeeping that every call keeps: the free list covers what
    the replacer holds, and neither the free list nor the page table
    names the frame -1. *)
Definition well_kept (s : BufferPoolManager.t) : Prop :=
  free_list_covers_held s
  ∧ (-1 ∉ BufferPoolManager.free_list_ s)
  ∧ binds_frames (BufferPoolManager.page_table_ s).

(** What no call changes, or changes only one way, between the state
    [s] before and the state [s'] after. *)
Definition pool_frame (s s' : BufferPoolManager.t) : Prop :=
  BufferPoolManager.pool_size_ s' = BufferPoolManager.pool_size_ s
  ∧ length (BufferPoolManager.pages_ s') = length (BufferPoolManager.pages_ s)
  ∧ ClockReplacer.capacity (BufferPoolManager.replacer_ s')
    = ClockReplacer.capacity (BufferPoolManager.replacer_ s)
  ∧ next_page_id (BufferPoolManager.disk_manager_ s)
    ≤ next_page_id (BufferPoolManager.disk_manager_ s')
  ∧ (well_kept s → well_kept s').

(** * Properties *)

(** ** Indexing and sequencing helpers *)

Lemma at_lookup {A : Type} (v : list A) (i : Z) (x : A) :
  0 ≤ i → v !! Z.to_nat i = Some x → at_ v i = Ok x.
Proof.
  intros Hi Hx. unfold at_.
  destruct (Z.leb_spec 0 i); [| lia]. by rewrite Hx.
Qed.

Lemma set_at_lookup {A : Type} (v : list A) (i : Z) (x y : A) :
  0 ≤ i → v !! Z.to_nat i = Some y → set_at v i x = Ok (<[Z.to_nat i := x]> v).
Proof.
  intros Hi Hy. unfold set_at.
  apply lookup_lt_Some in Hy.
  destruct (Z.leb_spec 0 i); [| lia].
  destruct (Z.ltb_spec i (Z.of_nat (length v))); [done | lia].
Qed.

(** A bind that returns went through a first step that returned. *)
Lemma bind_Ok {A B : Type} (m : outcome A) (f : A → outcome B) (b : B) :
  m ≫= f = Ok b → ∃ a, m = Ok a ∧ f a = Ok b.
Proof. destruct m; simpl; intros H; try discriminate. eauto. Qed.

Lemma set_at_Ok {A : Type} (v v' : list A) (i : Z) (x : A) :
  set_at v i x = Ok v' → 0 ≤ i ∧ v' !! Z.to_nat i = Some x.
Proof.
  unfold set_at. intros H.
  destruct (Z.leb_spec 0 i); [| done].
  destruct (Z.ltb_spec i (Z.of_nat (length v))); [| done].
  simplify_eq/=. split; [done |]. apply list_lookup_insert_eq. lia.
Qed.

(** ** The clock sweep *)

(** C9: on a replacer of capacity 3, after unpin(A); unpin(B); pin(A);
    unpin(A) the frame A carries reference bit 1; the first victim()
    clears A's bit to 0, keeps A eligible and returns B, and the next
    victim() returns A.  Two iterations of the sweep are enough for each
    call.  The tuple is: A's reference bit before the first victim(),
    the first victim, A's reference bit and eligibility after it, the
    second victim. *)
Theorem second_chance_evicts_B_then_A (A B : Z) (fuel : nat) :
  0 ≤ A < 3 → 0 ≤ B < 3 → A ≠ B → (2 ≤ fuel)%nat →
  (r4 ← second_chance_setup A B;
   '(r5, v1) ← ClockReplacer.Victim fuel r4;
   '(r6, v2) ← ClockReplacer.Victim fuel r5;
   Ok (ref_bit_of r4 A, v1, ref_bit_of r5 A, ClockReplacer.eligible r5 A, v2))
  = Ok (Some 1, Some B, Some 0, true, Some A).
Proof.
  intros HA HB Hne Hfuel.
  destruct fuel as [|[|fuel]]; [lia | lia |].
  assert (A = 0 ∨ A = 1 ∨ A = 2) as HA' by lia.
  assert (B = 0 ∨ B = 1 ∨ B = 2) as HB' by lia.
  destruct HA' as [-> | [-> | ->]], HB' as [-> | [-> | ->]];
    try (exfalso; apply Hne; reflexivity);
    vm_compute; reflexivity.
Qed.

Lemma second_chance_evicts_B_then_A_witness :
  (r4 ← second_chance_setup 2 0;
   '(r5, v1) ← ClockReplacer.Victim 2 r4;
   '(r6, v2) ← ClockReplacer.Victim 2 r5;
   Ok (ref_bit_of r4 2, v1, ref_bit_of r5 2, ClockReplacer.eligible r5 2, v2))
  = Ok (Some 1, Some 0, Some 0, true, Some 2).
Proof.
  apply (second_chance_evicts_B_then_A 2 0 2); lia.
Defined.

(** ** FlushPage *)



(** ** Evaluations on concrete call sequences *)

(** C1: pool of size 1, NewPage(); UnpinPage(0, false); FetchPage(0).
    The fetch is a page-table hit on a frame whose pin count was 0 and
    which the replacer held as eligible.  Afterwards the frame has
    pin count 1 and is still eligible: the replacer's next victim() is
    that frame, and the frame is still in the free list, from where a
    following FetchPage(7) takes it and rebinds it although it is
    pinned.  In general a page-table hit changes neither the replacer
    nor the free list. *)
Theorem fetch_hit_leaves_pinned_frame_eligible (fuel : nat) :
  (∀ s page_id,
     match BufferPoolManager.page_table_ s !! page_id,
           BufferPoolManager.FetchPageImpl fuel page_id s with
     | Some _, Ok (s', _) =>
         BufferPoolManager.replacer_ s' = BufferPoolManager.replacer_ s
         ∧ BufferPoolManager.free_list_ s' = BufferPoolManager.free_list_ s
     | _, _ => True
     end)
  ∧ (λ s, (frame_header s 0,
           ClockReplacer.eligible (BufferPoolManager.replacer_ s) 0,
           snd <$> ClockReplacer.Victim (S fuel) (BufferPoolManager.replacer_ s),
           BufferPoolManager.free_list_ s,
           snd <$> BufferPoolManager.FetchPageImpl fuel 7 s))
      <$> run fuel [NewPage; UnpinPage 0 false; FetchPage 0]
              (BufferPoolManager.new 1 Disk.new)
    = Ok (Some (0, 1, false), true, Ok (Some 0), [0], Ok (Some 0)).
Proof.
  split; [| vm_compute; reflexivity].
  intros s page_id. unfold BufferPoolManager.FetchPageImpl.
  destruct (BufferPoolManager.page_table_ s !! page_id) as [frame_id |]; [| done].
  destruct (at_ (BufferPoolManager.pages_ s) frame_id) as [p | |]; simpl; [| done..].
  by destruct (set_at _ _ _).
Qed.

(** A sweep over a ring of two empty buckets with a positive count
    never ends. *)
Lemma Victim_loop_empty_ring (fuel : nat) :
  ∀ (hand : Z) (rb : list Z) (m : gmap Z Z),
    0 ≤ hand →
    ClockReplacer.Victim_loop fuel (ClockReplacer.mk 2 1 hand [-1; -1] rb m ∅) 0 = OutOfFuel.
Proof.
  induction fuel as [| fuel IH]; intros hand rb m Hhand; [reflexivity |].
  pose proof (Z.rem_bound_pos hand 2 Hhand ltac:(lia)) as Hrem.
  assert (at_ [-1; -1] (Z.rem hand 2) = Ok (-1)) as Hat.
  { assert (Z.rem hand 2 = 0 ∨ Z.rem hand 2 = 1) as [-> | ->] by lia; reflexivity. }
  cbn [ClockReplacer.Victim_loop ClockReplacer.cur_size ClockReplacer.capacity
       ClockReplacer.clock_hand ClockReplacer.buckets].
  change (0 <? 1) with true. change (2 =? 0) with false. cbv iota.
  rewrite Hat. simpl. apply IH. lia.
Qed.

(** C3: pool of size 2, NewPage(); NewPage(); UnpinPage(0,false);
    FetchPage(7); UnpinPage(1,false); UnpinPage(7,false).  The fetch
    rebinds frame 0 to page 7 and tombstones it; unpinning page 1 puts
    frame 1 into the tombstoned slot; the last call unpins page 7, which
    registers frame 0 with the replacer.  Frame 0 ends bound to page 7
    with pin count 0, but no bucket holds it: [map] still sends it to
    slot 0, which holds frame 1.  The replacer counts two eligible
    frames; its next victim() returns frame 1 and the one after that
    sweeps an empty ring for ever instead of returning frame 0. *)
Theorem unpinned_bound_frame_in_no_bucket (fuel : nat) :
  (λ s, (frame_header s 0,
         BufferPoolManager.page_table_ s !! 7,
         ClockReplacer.buckets (BufferPoolManager.replacer_ s),
         ClockReplacer.map (BufferPoolManager.replacer_ s) !! 0,
         ClockReplacer.map (BufferPoolManager.replacer_ s) !! 1,
         ClockReplacer.eligible (BufferPoolManager.replacer_ s) 0,
         ClockReplacer.eligible (BufferPoolManager.replacer_ s) 1,
         ClockReplacer.cur_size (BufferPoolManager.replacer_ s)))
    <$> run fuel slot_reuse_calls (BufferPoolManager.new 2 Disk.new)
  = Ok (Some (7, 0, false), Some 0, [1; -1], Some 0, Some 0, false, true, 2)
  ∧ slot_reuse_after_victim
    = Ok (Some 1, ClockReplacer.mk 2 1 1 [-1; -1] [0; -1] {[0 := 0]} ∅)
  ∧ ClockReplacer.Victim fuel (ClockReplacer.mk 2 1 1 [-1; -1] [0; -1] {[0 := 0]} ∅)
    = OutOfFuel.
Proof.
  split; [vm_compute; reflexivity |].
  split; [vm_compute; reflexivity |].
  unfold ClockReplacer.Victim. simpl. by apply Victim_loop_empty_ring.
Qed.

(** C5: pool of size 2, NewPage(); NewPage(); UnpinPage(1,false);
    DeletePage(1).  The delete returns true and resets frame 1, but the
    page table again has an entry for page 1 (bound to frame 0), the id
    appended to the free list is 0 and not 1, and the disk collaborator
    has received no deallocate call.  In general DeletePage leaves the
    disk collaborator untouched. *)
Theorem delete_rebinds_page_and_never_deallocates (fuel : nat) :
  (∀ s page_id,
     match BufferPoolManager.DeletePageImpl page_id s with
     | Ok (s', _) =>
         BufferPoolManager.disk_manager_ s' = BufferPoolManager.disk_manager_ s
     | _ => True
     end)
  ∧ (s ← run fuel [NewPage; NewPage; UnpinPage 1 false] (BufferPoolManager.new 2 Disk.new);
     '(s', ok) ← BufferPoolManager.DeletePageImpl 1 s;
     Ok (BufferPoolManager.page_table_ s !! 1, BufferPoolManager.free_list_ s,
         ok, BufferPoolManager.page_table_ s' !! 1, BufferPoolManager.free_list_ s',
         frame_header s' 1, Disk.deallocations (BufferPoolManager.disk_manager_ s'),
         events (BufferPoolManager.disk_manager_ s')))
    = Ok (Some 1, [1], true, Some 0, [1; 0], Some (INVALID_PAGE_ID, 0, false), [],
          [AllocatePage 0; AllocatePage 1]).
Proof.
  split; [| vm_compute; reflexivity].
  intros s page_id. unfold BufferPoolManager.DeletePageImpl.
  destruct (BufferPoolManager.page_table_ s !! page_id) as [frame_id |] eqn:Hpt; [| done].
  destruct (at_ (BufferPoolManager.pages_ s) frame_id) as [p | |]; simpl; [| done..].
  destruct (negb (pin_count_ p =? 0)); [done |].
  unfold BufferPoolManager.erase_found. rewrite Hpt. simpl.
  unfold BufferPoolManager.reset_page_metadata. simpl.
  by destruct (set_at _ _ _).
Qed.

(** C7: the first fetch into a freshly constructed pool of any positive
    size takes frame 0 from the free list; that frame's page id is the
    sentinel, which the empty page table does not hold, and the erase
    of the iterator returned by find is undefined. *)
Theorem first_fetch_erases_end_iterator (n fuel : nat) (page_id : Z) (d : DiskManager) :
  BufferPoolManager.FetchPageImpl fuel page_id (BufferPoolManager.new (S n) d) = Undefined.
Proof. reflexivity. Qed.

(** C8: capacity 3; unpin 0, 1, 2; pin 0, 1, 2; unpin 1, 2.  Frame 0 is
    a tombstone, frames 1 and 2 are eligible with reference bit 1.
    victim() clears both bits in a full counted sweep and then returns
    frame 0, the tombstone, not frame 1; frames 1 and 2 both stay
    eligible and frame 0 stays in its bucket.  Without a tombstone
    (unpin 0, 1; pin 0, 1; unpin 0, 1) the fallback returns the smallest
    eligible frame 0 and takes it out of [map], but leaves it in its
    bucket with reference bit 0, and the next victim() finds it there
    and erases the end iterator of [map]. *)
Theorem fallback_returns_tombstoned_frame (fuel : nat) :
  (r ← all_referenced_setup;
   '(r', v) ← ClockReplacer.Victim (4 + fuel) r;
   Ok (ClockReplacer.eligible r <$> [0; 1; 2], ClockReplacer.ref_bits r,
       ClockReplacer.cur_size r, v,
       ClockReplacer.eligible r' <$> [0; 1; 2], ClockReplacer.buckets r',
       ClockReplacer.ref_bits r', ClockReplacer.cur_size r'))
  = Ok ([false; true; true], [0; 1; 1], 2, Some 0,
        [false; true; true], [0; 1; 2], [0; 0; 0], 1)
  ∧ (r ← both_referenced_setup;
     '(r', v) ← ClockReplacer.Victim (4 + fuel) r;
     Ok (ClockReplacer.eligible r <$> [0; 1], ClockReplacer.ref_bits r, v,
         ClockReplacer.eligible r' <$> [0; 1], ClockReplacer.buckets r',
         ClockReplacer.Victim (4 + fuel) r'))
    = Ok ([true; true], [1; 1; -1], Some 0, [false; true], [0; 1; -1], Undefined).
Proof. split; vm_compute; reflexivity. Qed.

(** ** NewPage and the disk *)

Section new_page_disk.
Import BufferPoolManager.

Lemma update_page_metadata_disk (frame_id page_id : Z) (s s' : t) :
  update_page_metadata frame_id page_id s = Ok s' → disk_manager_ s' = disk_manager_ s.
Proof.
  unfold update_page_metadata. intros H.
  apply bind_Ok in H as (ps & _ & H). by simplify_eq/=.
Qed.

Lemma erase_found_disk (page_id : Z) (s s' : t) :
  erase_found page_id s = Ok s' → disk_manager_ s' = disk_manager_ s.
Proof. unfold erase_found. intros H. case_match; by simplify_eq/=. Qed.

Lemma Allocate_writes (d : DiskManager) :
  Disk.writes (Disk.Allocate d).1 = Disk.writes d.
Proof. unfold Disk.writes. simpl. rewrite omap_app. simpl. by rewrite app_nil_r. Qed.

Lemma NewPageImpl_writes (fuel : nat) (s s' : t) (r : option (Z * Z)) :
  NewPageImpl fuel s = Ok (s', r) →
  Disk.writes (disk_manager_ s') = Disk.writes (disk_manager_ s).
Proof.
  unfold NewPageImpl. intros H.
  apply bind_Ok in H as ([[s1 f1] full] & Hguard & H).
  assert (disk_manager_ s1 = disk_manager_ s) as Hs1.
  { destruct (_ && _) in Hguard; [| by simplify_eq/=].
    apply bind_Ok in Hguard as ([r1 v1] & _ & ?). by simplify_eq/=. }
  destruct full; [simplify_eq/=; by rewrite Hs1 |].
  rewrite <- Hs1, <- (Allocate_writes (disk_manager_ s1)).
  destruct (Disk.Allocate (disk_manager_ s1)) as [d new_page_id] eqn:Hd.
  simpl in H. simpl. clear Hguard Hs1 Hd.
  destruct (as_size_t (cur_size_ s1) <? pool_size_ s1).
  { destruct (free_list_ s1) as [| f rest]; [done |].
    apply bind_Ok in H as (s2 & Hu & ?). simplify_eq/=.
    apply update_page_metadata_disk in Hu. by rewrite Hu. }
  destruct (as_size_t (cur_size_ s1) =? pool_size_ s1); [| by simplify_eq/=].
  apply bind_Ok in H as ([s2 f2] & Hsrc & H).
  apply bind_Ok in H as (p & _ & H).
  apply bind_Ok in H as (s3 & He & H).
  apply bind_Ok in H as (s4 & Hu & ?). simplify_eq/=.
  apply update_page_metadata_disk in Hu. apply erase_found_disk in He.
  rewrite Hu, He.
  destruct (free_list_ s1) as [| f rest]; [| by simplify_eq/=].
  apply bind_Ok in Hsrc as ([r2 v2] & _ & ?). by simplify_eq/=.
Qed.

End new_page_disk.

(** C4: NewPage never issues a write to the disk collaborator, whatever
    frame it rebinds.  On a pool of size 1 after NewPage();
    UnpinPage(0, true), frame 0 holds page 0, is dirty, is the
    replacer's only eligible frame and heads the free list: NewPage()
    rebinds it to page 1 with the disk's writes still being the single
    write made by the unpin, whereas FetchPage(7) from the same state
    writes page 0 back once more before rebinding.  The same holds when
    the free list of that state is emptied, so that NewPage has to take
    frame 0 from the replacer's victim(). *)
Theorem NewPage_never_writes_back (fuel : nat) :
  (∀ s, match BufferPoolManager.NewPageImpl fuel s with
        | Ok (s', _) =>
            Disk.writes (BufferPoolManager.disk_manager_ s')
            = Disk.writes (BufferPoolManager.disk_manager_ s)
        | _ => True
        end)
  ∧ (s ← run fuel [NewPage; UnpinPage 0 true] (BufferPoolManager.new 1 Disk.new);
     '(s1, r1) ← BufferPoolManager.NewPageImpl fuel s;
     '(s2, r2) ← BufferPoolManager.FetchPageImpl fuel 7 s;
     Ok (frame_header s 0, ClockReplacer.eligible (BufferPoolManager.replacer_ s) 0,
         BufferPoolManager.free_list_ s,
         (Disk.writes (BufferPoolManager.disk_manager_ s)).*1,
         r1, frame_header s1 0, (Disk.writes (BufferPoolManager.disk_manager_ s1)).*1,
         r2, frame_header s2 0, (Disk.writes (BufferPoolManager.disk_manager_ s2)).*1))
    = Ok (Some (0, 0, true), true, [0], [0],
          Some (1, 0), Some (1, 1, false), [0],
          Some 0, Some (7, 1, false), [0; 0])
  ∧ (s ← run fuel [NewPage; UnpinPage 0 true] (BufferPoolManager.new 1 Disk.new);
     let s := BufferPoolManager.set_free_list [] s in
     '(s1, r1) ← BufferPoolManager.NewPageImpl (1 + fuel) s;
     Ok (snd <$> ClockReplacer.Victim (1 + fuel) (BufferPoolManager.replacer_ s),
         r1, frame_header s1 0, BufferPoolManager.page_table_ s1 !! 0,
         (Disk.writes (BufferPoolManager.disk_manager_ s1)).*1))
    = Ok (Ok (Some 0), Some (1, 0), Some (1, 1, false), None, [0]).
Proof.
  split; [| split; vm_compute; reflexivity].
  intros s. destruct (BufferPoolManager.NewPageImpl fuel s) as [[s' r] | |] eqn:H; [| done..].
  by apply NewPageImpl_writes in H.
Qed.

(** ** Capacity *)

Section capacity.
Import BufferPoolManager.

Variable N : nat.
Hypothesis N_size_t : Z.of_nat N < 2 ^ 64.

Lemma filled_new (d : DiskManager) : 0 ≤ next_page_id d → filled N 0 (new N d).
Proof.
  intros Hd. split; simpl; try done.
  - lia.
  - by rewrite Nat.sub_0_r.
  - apply length_replicate.
  - intros i Hi. apply lookup_replicate_2. lia.
Qed.

Lemma as_size_t_small (k : nat) : (k ≤ N)%nat → as_size_t (Z.of_nat k) = Z.of_nat k.
Proof. intros Hk. unfold as_size_t. apply Z.mod_small. lia. Qed.

Lemma seq_head (k : nat) : (k < N)%nat → seq k (N - k) = k :: seq (S k) (N - S k).
Proof. intros Hk. replace (N - k)%nat with (S (N - S k)) by lia. reflexivity. Qed.

Lemma Pin_new (frame_id : Z) : ClockReplacer.Pin frame_id (ClockReplacer.new N) = ClockReplacer.new N.
Proof. reflexivity. Qed.

Lemma Victim_new (fuel : nat) :
  ClockReplacer.Victim fuel (ClockReplacer.new N) = Ok (ClockReplacer.new N, None).
Proof. reflexivity. Qed.

Lemma set_replacer_id (s : t) : set_replacer (replacer_ s) s = s.
Proof. by destruct s. Qed.

(** Below capacity a new page takes frame [k] and leaves the pool
    filled one further. *)
Lemma filled_NewPage (fuel k : nat) (s : t) :
  filled N k s → (k < N)%nat →
  ∃ s', NewPageImpl fuel s
        = Ok (s', Some (next_page_id (disk_manager_ s), Z.of_nat k))
        ∧ filled N (S k) s'.
Proof.
  intros [Hle Hps Hcs Hfl Hlen Hfresh Hsent Hrep Hnext] Hk.
  destruct s as [ps pgs rep fl pt cs d]. simpl in *. subst ps cs fl rep.
  unfold NewPageImpl. simpl. rewrite (as_size_t_small k Hle).
  destruct (Z.eqb_spec (Z.of_nat k) (Z.of_nat N)) as [? | _]; [lia |].
  simpl. rewrite !(as_size_t_small k Hle).
  destruct (Z.ltb_spec (Z.of_nat k) (Z.of_nat N)) as [_ | ?]; [| lia].
  rewrite (seq_head k Hk). simpl.
  unfold update_page_metadata. simpl.
  rewrite (set_at_lookup _ _ _ fresh_page); [| lia | rewrite Nat2Z.id; apply Hfresh; lia].
  simpl. rewrite Pin_new, Nat2Z.id.
  eexists; split; [reflexivity |].
  split; simpl; try done.
  - lia.
  - by rewrite length_insert.
  - intros i Hi. rewrite list_lookup_insert_ne by lia. apply Hfresh. lia.
  - rewrite lookup_insert_ne; [done |]. unfold INVALID_PAGE_ID. lia.
  - lia.
Qed.

(** Below capacity a fetch of a page that is not resident takes a
    never-bound frame and erases the end iterator. *)
Lemma filled_FetchPage (fuel k : nat) (s : t) (page_id : Z) :
  filled N k s → (k < N)%nat → page_table_ s !! page_id = None →
  FetchPageImpl fuel page_id s = Undefined.
Proof.
  intros [Hle Hps Hcs Hfl Hlen Hfresh Hsent Hrep Hnext] Hk Hmiss.
  unfold FetchPageImpl. rewrite Hmiss, Hfl, (seq_head k Hk). simpl.
  destruct (Z.eqb_spec (Z.of_nat k) (-1)) as [? | _]; [lia |].
  rewrite (at_lookup _ _ fresh_page); [| lia | rewrite Nat2Z.id; apply Hfresh; lia].
  simpl. unfold erase_found. simpl. by rewrite Hsent.
Qed.

(** At capacity both calls return [nullptr] and change nothing. *)
Lemma filled_full (fuel : nat) (s : t) (c : call) :
  filled N N s → on_fresh_page c s = true → bind_frame fuel c s = Ok (s, None).
Proof.
  intros [Hle Hps Hcs Hfl Hlen Hfresh Hsent Hrep Hnext] Hc.
  rewrite Nat.sub_diag in Hfl. simpl in Hfl.
  destruct c as [| page_id | | |]; simpl in Hc; try done.
  - simpl. unfold NewPageImpl.
    rewrite Hcs, Hps, (as_size_t_small N Hle), Z.eqb_refl, Hfl.
    rewrite bool_decide_eq_true_2 by done. simpl.
    rewrite Hrep, Victim_new. simpl. by rewrite <- Hrep, set_replacer_id.
  - apply bool_decide_eq_true_1 in Hc.
    simpl. unfold FetchPageImpl. rewrite Hc, Hfl.
    rewrite Hrep, Victim_new. simpl. by rewrite <- Hrep, set_replacer_id.
Qed.

Lemma fill_filled (fuel : nat) (cs : list call) :
  ∀ (k : nat) (s s' : t),
    filled N k s → fill fuel cs s = Some s' → filled N (k + length cs) s'.
Proof.
  induction cs as [| c cs IH]; intros k s s' Hs Hfill; simpl in Hfill.
  - simplify_eq. by rewrite Nat.add_0_r.
  - destruct (on_fresh_page c s) eqn:Hc; [| done].
    destruct (decide (k < N)%nat) as [Hk | Hk].
    + destruct c as [| page_id | | |]; simpl in Hc; try done.
      * destruct (filled_NewPage fuel k s Hs Hk) as (s1 & Hnew & Hs1).
        simpl in Hfill. rewrite Hnew in Hfill. simpl in Hfill.
        replace (k + length (NewPage :: cs))%nat with (S k + length cs)%nat
          by (simpl; lia).
        by apply (IH (S k) s1).
      * apply bool_decide_eq_true_1 in Hc.
        simpl in Hfill. by rewrite (filled_FetchPage fuel k s page_id Hs Hk Hc) in Hfill.
    + assert (k = N) as -> by (pose proof (filled_le _ _ _ Hs); lia).
      by rewrite (filled_full fuel s c Hs Hc) in Hfill.
Qed.

(** C6: for a pool of size N over a disk whose page ids start at a
    non-negative value, after any N new/fetch calls on distinct page
    ids that each return a frame, with no unpin, a further new, or a
    further fetch of a page id that is not resident, returns nullptr
    and leaves the pool as it was. *)
Theorem capacity_bound (fuel : nat) (d : DiskManager) (cs : list call) (s : t) (c : call) :
  0 ≤ next_page_id d →
  length cs = N →
  fill fuel cs (new N d) = Some s →
  on_fresh_page c s = true →
  bind_frame fuel c s = Ok (s, None).
Proof.
  intros Hd Hlen Hfill Hc.
  apply filled_full; [| done].
  pose proof (fill_filled fuel cs 0 (new N d) s (filled_new d Hd) Hfill) as Hs.
  simpl in Hs. by rewrite Hlen in Hs.
Qed.

End capacity.

Lemma capacity_bound_witness :
  ∃ s, fill 0 [NewPage; NewPage] (BufferPoolManager.new 2 Disk.new) = Some s
       ∧ bind_frame 0 (FetchPage 7) s = Ok (s, None)
       ∧ bind_frame 0 NewPage s = Ok (s, None).
Proof.
  eexists. split; [vm_compute; reflexivity |].
  split.
  - apply (capacity_bound 2 ltac:(done) 0 Disk.new [NewPage; NewPage]); done.
  - apply (capacity_bound 2 ltac:(done) 0 Disk.new [NewPage; NewPage]); done.
Defined.

(** * Further properties of the replacer *)

Section replacer_facts.
Import ClockReplacer.

Lemma at_Ok {A : Type} (v : list A) (i : Z) (x : A) :
  at_ v i = Ok x → 0 ≤ i ∧ v !! Z.to_nat i = Some x.
Proof.
  unfold at_. intros H.
  destruct (Z.leb_spec 0 i); [| done].
  destruct (v !! Z.to_nat i); by simplify_eq.
Qed.

Lemma at_fuel {A : Type} (v : list A) (i : Z) : at_ v i ≠ OutOfFuel.
Proof. unfold at_. destruct (0 <=? i); [| done]. by destruct (v !! Z.to_nat i). Qed.

Lemma set_at_inv {A : Type} (v v' : list A) (i : Z) (x : A) :
  set_at v i x = Ok v' → 0 ≤ i < Z.of_nat (length v) ∧ v' = <[Z.to_nat i := x]> v.
Proof.
  unfold set_at. intros H.
  destruct (Z.leb_spec 0 i); [| done].
  destruct (Z.ltb_spec i (Z.of_nat (length v))); [| done].
  by simplify_eq/=.
Qed.

Lemma set_at_fuel {A : Type} (v : list A) (i : Z) (x : A) : set_at v i x ≠ OutOfFuel.
Proof. unfold set_at. by destruct (_ && _). Qed.

Lemma Victim_loop_unfold (fuel : nat) (r : t) (sweep_cnt : Z) :
  Victim_loop fuel r sweep_cnt =
  if sweep_cnt <? cur_size r then
    match fuel with
    | O => OutOfFuel
    | S fuel' =>
        if capacity r =? 0 then Undefined else
        let hand := Z.rem (clock_hand r) (capacity r) in
        b ← at_ (buckets r) hand;
        if (b =? -1) || bool_decide (b ∈ recent_pinned r) then
          Victim_loop fuel' (set_clock_hand (hand + 1) r) sweep_cnt
        else
          rb ← at_ (ref_bits r) hand;
          if rb =? 1 then
            ref_bits' ← set_at (ref_bits r) hand 0;
            Victim_loop fuel' (set_clock_hand (hand + 1) (set_ref_bits ref_bits' r))
                        (sweep_cnt + 1)
          else
            buckets' ← set_at (buckets r) hand (-1);
            match map r !! b with
            | None => Undefined
            | Some _ =>
                Ok (mk (capacity r) (cur_size r - 1) (hand + 1) buckets' (ref_bits r)
                       (delete b (map r)) (recent_pinned r),
                    Some b)
            end
    end
  else Victim_fallback r.
Proof. by destruct fuel. Qed.

Lemma smallest_from_not_empty (bs : list Z) (n : nat) :
  ∀ (i smallest s : Z),
    smallest_from bs i n smallest = Ok s → smallest ≠ -1 → s ≠ -1.
Proof.
  induction n as [| n IH]; intros i smallest s H Hne; simpl in H.
  - by simplify_eq.
  - apply bind_Ok in H as (b & _ & H).
    apply IH in H; [done |].
    destruct (Z.eqb_spec b (-1)); simpl; [done |].
    by destruct (b <? smallest).
Qed.

Lemma smallest_from_fuel (bs : list Z) (n : nat) :
  ∀ (i smallest : Z), smallest_from bs i n smallest ≠ OutOfFuel.
Proof.
  induction n as [| n IH]; intros i smallest; simpl; [done |].
  pose proof (at_fuel bs i). destruct (at_ bs i); simpl; [apply IH | done..].
Qed.

Lemma Victim_fallback_evicted (r r' : t) (v : option Z) :
  Victim_fallback r = Ok (r', v) → evicted r r' v.
Proof.
  unfold Victim_fallback. intros H.
  apply bind_Ok in H as (f & Hf & H).
  apply smallest_from_not_empty in Hf; [| done].
  destruct (map r !! f) as [slot |] eqn:Hmap; [| done].
  simplify_eq/=. exists f. by rewrite Hmap.
Qed.

Lemma Victim_loop_evicted (fuel : nat) :
  ∀ (r : t) (sweep_cnt : Z) (r' : t) (v : option Z),
    Victim_loop fuel r sweep_cnt = Ok (r', v) → evicted r r' v.
Proof.
  induction fuel as [| fuel IH]; intros r c r' v H; rewrite Victim_loop_unfold in H.
  - destruct (c <? cur_size r); [done | by apply Victim_fallback_evicted].
  - destruct (c <? cur_size r); [| by apply Victim_fallback_evicted].
    destruct (capacity r =? 0); [done |].
    apply bind_Ok in H as (b & Hb & H).
    destruct (Z.eqb_spec b (-1)) as [-> | Hne]; simpl in H.
    { by apply IH in H. }
    destruct (bool_decide (b ∈ recent_pinned r)).
    { by apply IH in H. }
    apply bind_Ok in H as (rb & _ & H).
    destruct (rb =? 1).
    + apply bind_Ok in H as (rbs & Hrbs & H).
      apply set_at_inv in Hrbs as [_ ->].
      apply IH in H as (f & ? & ? & ? & ? & ? & ? & ? & ? & Hlen).
      simpl in *. rewrite length_insert in Hlen. by exists f.
    + apply bind_Ok in H as (bs & Hbs & H).
      apply set_at_inv in Hbs as [_ ->].
      destruct (map r !! b) as [slot |] eqn:Hmap; [| done].
      simplify_eq/=. exists b. simpl. rewrite Hmap, length_insert. by repeat split.
Qed.




Lemma Victim_inv (fuel : nat) (r r' : t) (v : option Z) :
  Victim fuel r = Ok (r', v) →
  (v = None ∧ r' = r ∧ cur_size r = 0) ∨ (cur_size r ≠ 0 ∧ evicted r r' v).
Proof.
  unfold Victim. intros H.
  destruct (Z.eqb_spec (cur_size r) 0) as [Hz | Hnz].
  - left. by simplify_eq.
  - right. split; [done |]. by apply Victim_loop_evicted in H.
Qed.

End replacer_facts.

(** X1: victim() returns false exactly when the count of eligible
    frames is 0, and then it leaves the replacer as it was. *)
Theorem Victim_false_iff_empty (fuel : nat) (r : ClockReplacer.t) :
  (ClockReplacer.cur_size r = 0 → ClockReplacer.Victim fuel r = Ok (r, None))
  ∧ (∀ r', ClockReplacer.Victim fuel r = Ok (r', None) →
           ClockReplacer.cur_size r = 0 ∧ r' = r).
Proof.
  split.
  - intros Hz. unfold ClockReplacer.Victim. by rewrite Hz.
  - intros r' H. apply Victim_inv in H as [(_ & -> & Hz) | (_ & f & ? & _)]; done.
Qed.

(** X2: when victim() returns a frame, the frame is not the empty-slot
    marker -1 and was a key of [map]; afterwards it is no key of [map]
    any more, the count is one less, and the tombstones, the capacity
    and the sizes of the two vectors are unchanged. *)
Theorem Victim_returns_held_frame
    (fuel : nat) (r r' : ClockReplacer.t) (frame_id : Z) :
  ClockReplacer.Victim fuel r = Ok (r', Some frame_id) →
  frame_id ≠ -1
  ∧ is_Some (ClockReplacer.map r !! frame_id)
  ∧ ClockReplacer.map r' = delete frame_id (ClockReplacer.map r)
  ∧ ClockReplacer.map r' !! frame_id = None
  ∧ ClockReplacer.cur_size r' = ClockReplacer.cur_size r - 1
  ∧ ClockReplacer.recent_pinned r' = ClockReplacer.recent_pinned r
  ∧ ClockReplacer.capacity r' = ClockReplacer.capacity r
  ∧ length (ClockReplacer.buckets r') = length (ClockReplacer.buckets r)
  ∧ length (ClockReplacer.ref_bits r') = length (ClockReplacer.ref_bits r).
Proof.
  intros H. apply Victim_inv in H as [(? & _) | (_ & f & ? & ? & ? & Hmap & ?)]; [done |].
  simplify_eq. rewrite Hmap, lookup_delete_eq. tauto.
Qed.

Lemma Victim_false_iff_empty_witness :
  ClockReplacer.Victim 0 (ClockReplacer.new 3) = Ok (ClockReplacer.new 3, None).
Proof.
  apply (proj1 (Victim_false_iff_empty 0 (ClockReplacer.new 3))). reflexivity.
Defined.

Lemma Victim_returns_held_frame_witness :
  0 ≠ -1
  ∧ is_Some (ClockReplacer.map one_frame_replacer !! 0)
  ∧ ClockReplacer.map one_frame_evicted = delete 0 (ClockReplacer.map one_frame_replacer)
  ∧ ClockReplacer.map one_frame_evicted !! 0 = None
  ∧ ClockReplacer.cur_size one_frame_evicted = ClockReplacer.cur_size one_frame_replacer - 1
  ∧ ClockReplacer.recent_pinned one_frame_evicted
    = ClockReplacer.recent_pinned one_frame_replacer
  ∧ ClockReplacer.capacity one_frame_evicted = ClockReplacer.capacity one_frame_replacer
  ∧ length (ClockReplacer.buckets one_frame_evicted)
    = length (ClockReplacer.buckets one_frame_replacer)
  ∧ length (ClockReplacer.ref_bits one_frame_evicted)
    = length (ClockReplacer.ref_bits one_frame_replacer).
Proof.
  apply (Victim_returns_held_frame 1 one_frame_replacer one_frame_evicted 0).
  vm_compute. reflexivity.
Defined.

(** ** Termination of the sweep *)

Section sweep_termination.
Import ClockReplacer.

Lemma dist_step (cap j h : Z) :
  0 ≤ h < cap → 0 ≤ j < cap → h ≠ j → (j - (h + 1)) mod cap = (j - h) mod cap - 1.
Proof.
  intros Hh Hj Hne. destruct (Z_lt_dec h j).
  - rewrite !Z.mod_small by lia. lia.
  - rewrite <- (Z_mod_plus_full (j - (h + 1)) 1 cap), <- (Z_mod_plus_full (j - h) 1 cap).
    rewrite !Z.mod_small by lia. lia.
Qed.

Lemma dist_wrap (cap j : Z) : 0 ≤ j < cap → (j - (j + 1)) mod cap = cap - 1.
Proof.
  intros Hj. replace (j - (j + 1)) with (-1) by lia.
  rewrite <- (Z_mod_plus_full (-1) 1 cap), Z.mod_small by lia. lia.
Qed.

Lemma Victim_fallback_fuel (r : t) : Victim_fallback r ≠ OutOfFuel.
Proof.
  unfold Victim_fallback.
  pose proof (smallest_from_fuel (buckets r) (Z.to_nat (capacity r)) 0 INT_MAX).
  destruct (smallest_from _ _ _ _) as [f | |]; simpl; [| done..].
  by destruct (map r !! f).
Qed.

Lemma Victim_loop_terminates (j : nat) (f : Z) (fuel : nat) :
  ∀ (r : t) (sweep_cnt : Z),
    0 ≤ clock_hand r →
    Z.of_nat j < capacity r →
    buckets r !! j = Some f → f ≠ -1 → f ∉ recent_pinned r →
    sweep_potential r j < Z.of_nat fuel →
    Victim_loop fuel r sweep_cnt ≠ OutOfFuel.
Proof.
  induction fuel as [| fuel IH]; intros r c Hhand Hj Hf Hne Hrp Hpot.
  { unfold sweep_potential in Hpot.
    pose proof (Z.mod_pos_bound (Z.of_nat j - clock_hand r) (capacity r) ltac:(lia)).
    destruct (bool_decide _); lia. }
  rewrite Victim_loop_unfold.
  destruct (c <? cur_size r); [| apply Victim_fallback_fuel].
  destruct (Z.eqb_spec (capacity r) 0) as [? | _]; [lia |].
  rewrite Z.rem_mod_nonneg by lia.
  pose proof (Z.mod_pos_bound (clock_hand r) (capacity r) ltac:(lia)) as Hh.
  set (h := clock_hand r mod capacity r) in *.
  assert ((Z.of_nat j - clock_hand r) mod capacity r = (Z.of_nat j - h) mod capacity r)
    as Hnorm by (unfold h; by rewrite Zminus_mod_idemp_r).
  unfold sweep_potential in Hpot. rewrite Hnorm in Hpot. cbv zeta.
  destruct (at_ (buckets r) h) as [b | |] eqn:Hb; simpl; [| done | by apply at_fuel in Hb].
  apply at_Ok in Hb as [_ Hb].
  destruct (decide (Z.to_nat h = j)) as [Hhj | Hhj].
  - (* the hand stands on the live slot *)
    rewrite Hhj, Hf in Hb. simplify_eq.
    assert (Z.of_nat (Z.to_nat h) = h) as Hjh by lia. rewrite Hjh in Hpot.
    destruct (Z.eqb_spec b (-1)) as [? | _]; [done |].
    rewrite bool_decide_eq_false_2 by done. simpl.
    destruct (at_ (ref_bits r) h) as [rb | |] eqn:Hrb; simpl;
      [| done | by apply at_fuel in Hrb].
    apply at_Ok in Hrb as [_ Hrb].
    destruct (Z.eqb_spec rb 1) as [-> | _].
    + destruct (set_at (ref_bits r) h 0) as [rbs | |] eqn:Hrbs; simpl;
        [| done | by apply set_at_fuel in Hrbs].
      apply set_at_inv in Hrbs as [Hin ->].
      apply IH; simpl; [lia | lia | done | done | done |].
      unfold sweep_potential. simpl.
      rewrite list_lookup_insert_eq by lia.
      rewrite bool_decide_eq_false_2 by done.
      rewrite Hjh, dist_wrap by lia.
      rewrite Hrb, bool_decide_eq_true_2 in Hpot by done.
      replace (h - h) with 0 in Hpot by lia. rewrite Z.mod_0_l in Hpot by lia. lia.
    + destruct (set_at (buckets r) h (-1)) as [bs | |] eqn:Hbs; simpl;
        [| done | by apply set_at_fuel in Hbs].
      by destruct (map r !! b).
  - (* the hand stands elsewhere: one step closer *)
    assert (h ≠ Z.of_nat j) as Hne' by lia.
    pose proof (dist_step (capacity r) (Z.of_nat j) h ltac:(lia) ltac:(lia) Hne') as Hstep.
    destruct ((b =? -1) || bool_decide (b ∈ recent_pinned r)).
    + apply IH; simpl; [lia | lia | done | done | done |].
      unfold sweep_potential. simpl. rewrite Hstep. lia.
    + destruct (at_ (ref_bits r) h) as [rb | |] eqn:Hrb; simpl;
        [| done | by apply at_fuel in Hrb].
      destruct (rb =? 1).
      * destruct (set_at (ref_bits r) h 0) as [rbs | |] eqn:Hrbs; simpl;
          [| done | by apply set_at_fuel in Hrbs].
        apply set_at_inv in Hrbs as [Hin ->].
        apply IH; simpl; [lia | lia | done | done | done |].
        unfold sweep_potential. simpl.
        rewrite list_lookup_insert_ne by done. rewrite Hstep. lia.
      * destruct (set_at (buckets r) h (-1)) as [bs | |] eqn:Hbs; simpl;
          [| done | by apply set_at_fuel in Hbs].
        by destruct (map r !! b).
Qed.

End sweep_termination.

(** X3: victim() terminates whenever the ring holds a live frame: if
    the hand is not negative and some slot inside the capacity holds a
    frame that is neither the empty marker nor tombstoned, then twice
    the capacity iterations of the sweep are enough for victim() to
    return (or to hit undefined behaviour); it never needs more. *)
Theorem Victim_terminates
    (r : ClockReplacer.t) (j : nat) (frame_id : Z) (fuel : nat) :
  0 ≤ ClockReplacer.clock_hand r →
  Z.of_nat j < ClockReplacer.capacity r →
  ClockReplacer.buckets r !! j = Some frame_id →
  frame_id ≠ -1 →
  frame_id ∉ ClockReplacer.recent_pinned r →
  (2 * Z.to_nat (ClockReplacer.capacity r) ≤ fuel)%nat →
  ClockReplacer.Victim fuel r ≠ OutOfFuel.
Proof.
  intros Hhand Hj Hf Hne Hrp Hfuel. unfold ClockReplacer.Victim.
  destruct (ClockReplacer.cur_size r =? 0); [done |].
  apply (Victim_loop_terminates j frame_id); try done.
  unfold sweep_potential.
  pose proof (Z.mod_pos_bound (Z.of_nat j - ClockReplacer.clock_hand r)
                (ClockReplacer.capacity r) ltac:(lia)).
  destruct (bool_decide _); lia.
Qed.

Lemma Victim_terminates_witness : ClockReplacer.Victim 2 one_frame_replacer ≠ OutOfFuel.
Proof.
  apply (Victim_terminates one_frame_replacer 0 0 2).
  - simpl. lia.
  - simpl. lia.
  - reflexivity.
  - lia.
  - simpl. apply not_elem_of_empty.
  - simpl. lia.
Defined.

(** ** Pin and Unpin *)

Section pin_unpin.
Import ClockReplacer.

Lemma Unpin_inv (frame_id : Z) (r r' : t) :
  Unpin frame_id r = Ok r' →
  capacity r' = capacity r
  ∧ length (buckets r') = length (buckets r)
  ∧ length (ref_bits r') = length (ref_bits r)
  ∧ (∀ g, held r' g → held r g ∨ g = frame_id).
Proof.
  unfold Unpin, held. intros H.
  destruct (capacity r <? frame_id); [by simplify_eq; auto |].
  destruct (map r !! frame_id) as [slot |] eqn:Hmap.
  - destruct (bool_decide (frame_id ∈ recent_pinned r)); [| by simplify_eq; auto].
    apply bind_Ok in H as (rbs & Hrbs & H). apply set_at_inv in Hrbs as [_ ->].
    simplify_eq/=. rewrite length_insert. repeat split; try done.
    intros g [Hg Hrp]. destruct (decide (g = frame_id)); [by right | left].
    split; [done |]. intros Hin. apply Hrp.
    rewrite elem_of_difference, elem_of_singleton. tauto.
  - apply bind_Ok in H as (slot & _ & H).
    apply bind_Ok in H as (bs & Hbs & H). apply set_at_inv in Hbs as [_ ->].
    apply bind_Ok in H as (rbs & Hrbs & H). apply set_at_inv in Hrbs as [_ ->].
    simplify_eq/=. rewrite !length_insert. repeat split; try done.
    intros g [Hg Hrp]. destruct (decide (g = frame_id)); [by right | left].
    by rewrite lookup_insert_ne in Hg.
Qed.

Lemma Pin_held (frame_id g : Z) (r : t) :
  held (Pin frame_id r) g → held r g ∧ g ≠ frame_id.
Proof.
  unfold Pin, held.
  destruct (map r !! frame_id) as [slot |] eqn:Hmap; simpl.
  - intros [Hg Hrp]. rewrite elem_of_union, elem_of_singleton in Hrp.
    repeat split; [done | tauto | ]. intros ->. tauto.
  - intros [Hg Hrp]. repeat split; [done..|]. intros ->.
    rewrite Hmap in Hg. by destruct Hg.
Qed.

End pin_unpin.

(** X4: a second unpin of the same frame changes nothing: once
    Unpin(f) has returned, Unpin(f) again returns the same replacer
    (provided the replacer had no tombstone for a frame outside its
    map). *)
Theorem Unpin_twice (frame_id : Z) (r r' : ClockReplacer.t) :
  ClockReplacer.Unpin frame_id r = Ok r' →
  (ClockReplacer.map r !! frame_id = None → frame_id ∉ ClockReplacer.recent_pinned r) →
  ClockReplacer.Unpin frame_id r' = Ok r'.
Proof.
  intros H Hstale. pose proof H as H0. unfold ClockReplacer.Unpin in H.
  destruct (ClockReplacer.capacity r <? frame_id) eqn:Hcap; [by simplify_eq |].
  destruct (ClockReplacer.map r !! frame_id) as [slot |] eqn:Hmap.
  - destruct (bool_decide (frame_id ∈ ClockReplacer.recent_pinned r)) eqn:Hrp;
      [| by simplify_eq].
    apply bind_Ok in H as (rbs & _ & H). simplify_eq/=.
    unfold ClockReplacer.Unpin. simpl. rewrite Hcap, Hmap.
    rewrite bool_decide_eq_false_2; [done |].
    rewrite elem_of_difference, elem_of_singleton. tauto.
  - apply bind_Ok in H as (slot & _ & H).
    apply bind_Ok in H as (bs & _ & H).
    apply bind_Ok in H as (rbs & _ & H). simplify_eq/=.
    unfold ClockReplacer.Unpin. simpl. rewrite Hcap, lookup_insert_eq.
    by rewrite bool_decide_eq_false_2 by auto.
Qed.

Lemma Unpin_twice_witness :
  ClockReplacer.Unpin 0 unpin_example_replacer = Ok unpin_example_replacer.
Proof.
  apply (Unpin_twice 0 (ClockReplacer.new 2) unpin_example_replacer).
  - vm_compute. reflexivity.
  - intros _. simpl. apply not_elem_of_empty.
Defined.

(** X5: pinning an eligible frame and unpinning it again gives the
    replacer back as it was, except that the frame's reference bit is
    now 1: count, hand, buckets, map and tombstones are restored. *)
Theorem Pin_then_Unpin_sets_reference_bit (frame_id slot : Z) (r : ClockReplacer.t) :
  ClockReplacer.map r !! frame_id = Some slot →
  frame_id ∉ ClockReplacer.recent_pinned r →
  frame_id ≤ ClockReplacer.capacity r →
  0 ≤ slot < Z.of_nat (length (ClockReplacer.ref_bits r)) →
  ClockReplacer.Unpin frame_id (ClockReplacer.Pin frame_id r)
  = Ok (ClockReplacer.set_ref_bits (<[Z.to_nat slot := 1]> (ClockReplacer.ref_bits r)) r).
Proof.
  intros Hmap Hrp Hcap Hslot.
  unfold ClockReplacer.Pin. rewrite Hmap.
  unfold ClockReplacer.Unpin. simpl. rewrite Hmap.
  destruct (Z.ltb_spec (ClockReplacer.capacity r) frame_id); [lia |].
  rewrite bool_decide_eq_true_2
    by (rewrite elem_of_union, elem_of_singleton; by left).
  unfold set_at.
  destruct (Z.leb_spec 0 slot); [| lia].
  destruct (Z.ltb_spec slot (Z.of_nat (length (ClockReplacer.ref_bits r)))); [| lia].
  simpl. unfold ClockReplacer.set_ref_bits. do 2 f_equal; [lia |].
  apply set_eq. intros x.
  rewrite elem_of_difference, elem_of_union, elem_of_singleton.
  split; [tauto |]. intros Hx. split; [by right |]. by intros ->.
Qed.

Lemma Pin_then_Unpin_sets_reference_bit_witness :
  ClockReplacer.Unpin 0 (ClockReplacer.Pin 0 one_frame_replacer)
  = Ok (ClockReplacer.set_ref_bits
          (<[Z.to_nat 0 := 1]> (ClockReplacer.ref_bits one_frame_replacer))
          one_frame_replacer).
Proof.
  apply (Pin_then_Unpin_sets_reference_bit 0 0 one_frame_replacer).
  - reflexivity.
  - simpl. apply not_elem_of_empty.
  - simpl. lia.
  - simpl. lia.
Defined.



(** X8: the vectors of the replacer never change size and its capacity
    never changes: a replacer whose buckets and reference bits have
    [capacity] entries stays so under Pin, Unpin and victim(). *)
Theorem ring_shape_preserved (frame_id : Z) (fuel : nat) (r : ClockReplacer.t) :
  ring_shaped r →
  ring_shaped (ClockReplacer.Pin frame_id r)
  ∧ (∀ r', ClockReplacer.Unpin frame_id r = Ok r' → ring_shaped r')
  ∧ (∀ r' v, ClockReplacer.Victim fuel r = Ok (r', v) → ring_shaped r').
Proof.
  intros [Hb Hr]. unfold ring_shaped. repeat split.
  - unfold ClockReplacer.Pin. by destruct (ClockReplacer.map r !! frame_id).
  - unfold ClockReplacer.Pin. by destruct (ClockReplacer.map r !! frame_id).
  - apply Unpin_inv in H as (-> & -> & _). done.
  - apply Unpin_inv in H as (-> & _ & -> & _). done.
  - apply Victim_inv in H as [(_ & -> & _) | (_ & f & _ & _ & _ & _ & _ & _ & -> & -> & _)];
      done.
  - apply Victim_inv in H as [(_ & -> & _) | (_ & f & _ & _ & _ & _ & _ & _ & -> & _ & ->)];
      done.
Qed.

Lemma ring_shape_preserved_witness :
  ring_shaped (ClockReplacer.Pin 0 one_frame_replacer)
  ∧ (∀ r', ClockReplacer.Unpin 0 one_frame_replacer = Ok r' → ring_shaped r')
  ∧ (∀ r' v, ClockReplacer.Victim 1 one_frame_replacer = Ok (r', v) → ring_shaped r').
Proof.
  apply (ring_shape_preserved 0 1 one_frame_replacer). by split.
Defined.

(** ** find_next_available *)

Section slot_search.
Import ClockReplacer.

Lemma find_next_available_from_sound (r : t) (start : Z) (n : nat) :
  ∀ (i slot : Z),
    0 ≤ start → 0 ≤ i → 0 < capacity r →
    find_next_available_from r start i n = Ok slot →
    slot = -1
    ∨ (0 ≤ slot < capacity r
       ∧ ∃ b, buckets r !! Z.to_nat slot = Some b ∧ (b = -1 ∨ b ∈ recent_pinned r)).
Proof.
  induction n as [| n IH]; intros i slot Hstart Hi Hcap H; simpl in H.
  - left. by simplify_eq.
  - apply bind_Ok in H as (b & Hb & H). apply at_Ok in Hb as [_ Hb].
    pose proof (Z.rem_bound_pos (i + start) (capacity r) ltac:(lia) Hcap) as Hrem.
    destruct (Z.eqb_spec b (-1)) as [-> | _].
    { simplify_eq. right. split; [done |]. exists (-1). auto. }
    destruct (bool_decide (b ∈ recent_pinned r)) eqn:Hrp.
    { simplify_eq. apply bool_decide_eq_true_1 in Hrp. right. split; [done |]. eauto. }
    apply IH in H; [done | done | lia | done].
Qed.

End slot_search.

(** X7: the slot that find_next_available returns, when it is not -1,
    lies inside the ring and holds either the empty marker or a
    tombstoned frame; a bucket that holds a live frame is never
    returned. *)
Theorem find_next_available_sound (r : ClockReplacer.t) (start slot : Z) :
  0 ≤ start →
  ClockReplacer.find_next_available r start = Ok slot →
  slot ≠ -1 →
  0 ≤ slot < ClockReplacer.capacity r
  ∧ ∃ b, ClockReplacer.buckets r !! Z.to_nat slot = Some b
         ∧ (b = -1 ∨ b ∈ ClockReplacer.recent_pinned r).
Proof.
  intros Hstart H Hne. unfold ClockReplacer.find_next_available in H.
  destruct (Z_lt_dec 0 (ClockReplacer.capacity r)) as [Hcap | Hcap].
  - apply find_next_available_from_sound in H as [? | ?]; [done | done | done | lia | done].
  - replace (Z.to_nat (ClockReplacer.capacity r)) with 0%nat in H by lia.
    simpl in H. by simplify_eq.
Qed.

Lemma find_next_available_sound_witness :
  0 ≤ 0 < ClockReplacer.capacity (ClockReplacer.Pin 0 one_frame_replacer)
  ∧ ∃ b, ClockReplacer.buckets (ClockReplacer.Pin 0 one_frame_replacer) !! Z.to_nat 0 = Some b
         ∧ (b = -1 ∨ b ∈ ClockReplacer.recent_pinned (ClockReplacer.Pin 0 one_frame_replacer)).
Proof.
  apply (find_next_available_sound (ClockReplacer.Pin 0 one_frame_replacer) 0 0).
  - lia.
  - vm_compute. reflexivity.
  - lia.
Defined.

(** * Further properties of the pool manager *)

Section pool_helpers.
Import BufferPoolManager.

Lemma update_page_metadata_inv (frame_id page_id : Z) (s s' : t) :
  update_page_metadata frame_id page_id s = Ok s' →
  0 ≤ frame_id < Z.of_nat (length (pages_ s))
  ∧ s' = mk (pool_size_ s)
            (<[Z.to_nat frame_id := mkPage zero_bytes page_id 1 false]> (pages_ s))
            (ClockReplacer.Pin frame_id (replacer_ s)) (free_list_ s)
            (<[page_id := frame_id]> (page_table_ s)) (cur_size_ s) (disk_manager_ s).
Proof.
  unfold update_page_metadata. intros H.
  apply bind_Ok in H as (ps & Hps & H). apply set_at_inv in Hps as [Hin ->].
  by simplify_eq/=.
Qed.

Lemma erase_found_inv (page_id : Z) (s s' : t) :
  erase_found page_id s = Ok s' →
  is_Some (page_table_ s !! page_id)
  ∧ s' = set_page_table (delete page_id (page_table_ s)) s.
Proof.
  unfold erase_found. intros H.
  destruct (page_table_ s !! page_id); by simplify_eq.
Qed.

Lemma FlushPageImpl_inv (page_id : Z) (s s' : t) (b : bool) :
  FlushPageImpl page_id s = Ok (s', b) →
  (b = false ∧ s' = s ∧ page_table_ s !! page_id = None)
  ∨ (∃ frame_id p,
       b = true ∧ page_table_ s !! page_id = Some frame_id
       ∧ 0 ≤ frame_id ∧ pages_ s !! Z.to_nat frame_id = Some p
       ∧ s' = set_disk (Disk.Write page_id (data_ p) (disk_manager_ s)) s).
Proof.
  unfold FlushPageImpl. intros H.
  destruct (page_table_ s !! page_id) as [frame_id |]; [| left; by simplify_eq].
  apply bind_Ok in H as (p & Hp & H). apply at_Ok in Hp as [Hpos Hp].
  right. exists frame_id, p. by simplify_eq.
Qed.

(** The frame a miss or a full pool takes: the head of the free list,
    or else the replacer's victim ([dflt] when there is none). *)
Lemma take_frame_inv (fuel : nat) (dflt : Z) (s s1 : t) (frame_id : Z) :
  match free_list_ s with
  | f :: rest => Ok (set_free_list rest s, f)
  | [] =>
      '(r, v) ← ClockReplacer.Victim fuel (replacer_ s);
      Ok (set_replacer r s, default dflt v)
  end = Ok (s1, frame_id) →
  (∃ rest, free_list_ s = frame_id :: rest ∧ s1 = set_free_list rest s)
  ∨ (free_list_ s = [] ∧ s1 = s ∧ frame_id = dflt
     ∧ ClockReplacer.cur_size (replacer_ s) = 0)
  ∨ (∃ r, free_list_ s = [] ∧ s1 = set_replacer r s
          ∧ evicted (replacer_ s) r (Some frame_id)).
Proof.
  intros H. destruct (free_list_ s) as [| f rest].
  - apply bind_Ok in H as ([r v] & Hv & H). simplify_eq/=.
    apply Victim_inv in Hv as [(-> & -> & Hz) | (_ & Hev)].
    + right. left. by destruct s.
    + right. right. exists r. split; [done |]. split; [done |].
      destruct Hev as (f & -> & ?). simpl. by exists f.
  - left. exists rest. by simplify_eq.
Qed.

(** What Pin leaves for its frame: a tombstone, unless [map] does not
    know the frame. *)
Lemma Pin_tombstones (frame_id : Z) (r : ClockReplacer.t) :
  ClockReplacer.map (ClockReplacer.Pin frame_id r) !! frame_id = None
  ∨ frame_id ∈ ClockReplacer.recent_pinned (ClockReplacer.Pin frame_id r).
Proof.
  unfold ClockReplacer.Pin.
  destruct (ClockReplacer.map r !! frame_id) as [slot |] eqn:Hmap; simpl; [right | by left].
  rewrite elem_of_union, elem_of_singleton. by left.
Qed.

End pool_helpers.

(** ** What a successful FetchPage and NewPage leave behind *)

(** X12: when FetchPage of a page that is not resident returns a frame,
    the page table binds the page to that frame, the frame holds the
    page id with pin count 1 and a clear dirty flag, its bytes are the
    bytes the disk holds for the page (zero bytes if it was never
    written), and the read of the page is the last call made to the
    disk.  The replacer has been told of the pin: the frame is in
    [recent_pinned] unless [map] has no entry for it.  That much and no
    more: the scan that ends victim() can still return the frame. *)
Theorem FetchPage_miss_binds
    (fuel : nat) (page_id frame_id : Z) (s s' : BufferPoolManager.t) :
  BufferPoolManager.page_table_ s !! page_id = None →
  BufferPoolManager.FetchPageImpl fuel page_id s = Ok (s', Some frame_id) →
  0 ≤ frame_id
  ∧ BufferPoolManager.page_table_ s' !! page_id = Some frame_id
  ∧ BufferPoolManager.pages_ s' !! Z.to_nat frame_id
    = Some (mkPage
              (default zero_bytes
                 (contents (BufferPoolManager.disk_manager_ s) !! page_id))
              page_id 1 false)
  ∧ (ClockReplacer.map (BufferPoolManager.replacer_ s') !! frame_id = None
     ∨ frame_id ∈ ClockReplacer.recent_pinned (BufferPoolManager.replacer_ s'))
  ∧ last (events (BufferPoolManager.disk_manager_ s')) = Some (ReadPage page_id).
Proof.
  intros Hmiss H. unfold BufferPoolManager.FetchPageImpl in H. rewrite Hmiss in H.
  apply bind_Ok in H as ([s1 rf] & Hsrc & H).
  destruct (Z.eqb_spec rf (-1)) as [? | _]; [done |].
  apply bind_Ok in H as (p & Hp & H).
  apply bind_Ok in H as ([s2 b2] & Hflush & H).
  apply bind_Ok in H as (s3 & Herase & H).
  apply bind_Ok in H as (s4 & Hupd & H).
  unfold Disk.Read in H. simpl in H.
  apply bind_Ok in H as (p4 & Hp4 & H).
  apply bind_Ok in H as (ps & Hps & H).
  apply set_at_inv in Hps as [Hin ->]. apply at_Ok in Hp4 as [_ Hp4].
  apply update_page_metadata_inv in Hupd as [Hrf ->].
  apply erase_found_inv in Herase as [Hold ->].
  simpl in *. rewrite list_lookup_insert_eq in Hp4 by lia.
  assert (BufferPoolManager.page_table_ s1 = BufferPoolManager.page_table_ s
          ∧ BufferPoolManager.disk_manager_ s1 = BufferPoolManager.disk_manager_ s)
    as [Hpt1 Hd1].
  { apply take_frame_inv in Hsrc
      as [(rest & _ & ->) | [(_ & -> & _) | (r & _ & -> & _)]]; done. }
  assert (contents (BufferPoolManager.disk_manager_ s2) !! page_id
          = contents (BufferPoolManager.disk_manager_ s) !! page_id
          ∧ BufferPoolManager.page_table_ s2 = BufferPoolManager.page_table_ s1) as [Hc2 Hpt2].
  { destruct (is_dirty_ p); [| by simplify_eq/=; rewrite Hd1].
    apply FlushPageImpl_inv in Hflush
      as [(_ & -> & _) | (f0 & p0 & _ & Hres & _ & _ & ->)]; [by rewrite Hd1 |].
    simpl. rewrite Hd1. split; [| done].
    apply lookup_insert_ne. intros Heq. rewrite Heq, Hpt1, Hmiss in Hres. done. }
  simplify_eq/=. rewrite Hc2.
  repeat split.
  - lia.
  - by rewrite lookup_insert_eq.
  - rewrite list_lookup_insert_eq; [done | rewrite length_insert; lia].
  - apply Pin_tombstones.
  - by rewrite last_snoc.
Qed.

Lemma FetchPage_miss_binds_witness :
  ∃ s',
    BufferPoolManager.FetchPageImpl 0 7 fetch_example = Ok (s', Some 0)
    ∧ 0 ≤ 0
    ∧ BufferPoolManager.page_table_ s' !! 7 = Some 0
    ∧ BufferPoolManager.pages_ s' !! Z.to_nat 0
      = Some (mkPage
                (default zero_bytes
                   (contents (BufferPoolManager.disk_manager_ fetch_example) !! 7))
                7 1 false)
    ∧ (ClockReplacer.map (BufferPoolManager.replacer_ s') !! 0 = None
       ∨ 0 ∈ ClockReplacer.recent_pinned (BufferPoolManager.replacer_ s'))
    ∧ last (events (BufferPoolManager.disk_manager_ s')) = Some (ReadPage 7).
Proof.
  eexists. split; [vm_compute; reflexivity |].
  apply (FetchPage_miss_binds 0 7 0 fetch_example).
  - reflexivity.
  - vm_compute. reflexivity.
Defined.

(** X13: when NewPage returns a frame and the bound count does not
    exceed the pool size, the page id it stores is the disk's next page
    id, which the disk then advances by one; the page table binds that
    page to the returned frame, the frame holds the page id with pin
    count 1, a clear dirty flag and zero bytes, and the allocation is
    the only call made to the disk.  The replacer has been told of the
    pin: the frame is in [recent_pinned] unless [map] has no entry for
    it.  That much and no more: the scan that ends victim() can still
    return the frame. *)
Theorem NewPage_binds_fresh_page
    (fuel : nat) (page_id frame_id : Z) (s s' : BufferPoolManager.t) :
  BufferPoolManager.as_size_t (BufferPoolManager.cur_size_ s)
    ≤ BufferPoolManager.pool_size_ s →
  BufferPoolManager.NewPageImpl fuel s = Ok (s', Some (page_id, frame_id)) →
  page_id = next_page_id (BufferPoolManager.disk_manager_ s)
  ∧ next_page_id (BufferPoolManager.disk_manager_ s') = page_id + 1
  ∧ events (BufferPoolManager.disk_manager_ s')
    = events (BufferPoolManager.disk_manager_ s) ++ [AllocatePage page_id]
  ∧ 0 ≤ frame_id
  ∧ BufferPoolManager.page_table_ s' !! page_id = Some frame_id
  ∧ BufferPoolManager.pages_ s' !! Z.to_nat frame_id
    = Some (mkPage zero_bytes page_id 1 false)
  ∧ (ClockReplacer.map (BufferPoolManager.replacer_ s') !! frame_id = None
     ∨ frame_id ∈ ClockReplacer.recent_pinned (BufferPoolManager.replacer_ s')).
Proof.
  intros Hsize H. unfold BufferPoolManager.NewPageImpl in H.
  apply bind_Ok in H as ([[s1 f1] full] & Hguard & H).
  assert (BufferPoolManager.disk_manager_ s1 = BufferPoolManager.disk_manager_ s
          ∧ BufferPoolManager.cur_size_ s1 = BufferPoolManager.cur_size_ s
          ∧ BufferPoolManager.pool_size_ s1 = BufferPoolManager.pool_size_ s)
    as (Hd1 & Hc1 & Hp1).
  { destruct (_ && _) in Hguard; [| by simplify_eq/=].
    apply bind_Ok in Hguard as ([r1 v1] & _ & ?). by simplify_eq/=. }
  destruct full; [done |].
  unfold Disk.Allocate in H. simpl in H. rewrite Hc1, Hp1, Hd1 in H.
  destruct (Z.ltb_spec (BufferPoolManager.as_size_t (BufferPoolManager.cur_size_ s))
              (BufferPoolManager.pool_size_ s)).
  { destruct (BufferPoolManager.free_list_ s1) as [| f rest]; [done |].
    apply bind_Ok in H as (s2 & Hupd & H).
    apply update_page_metadata_inv in Hupd as [Hf ->]. simplify_eq/=.
    repeat split; try done; [lia | by rewrite lookup_insert_eq | |].
    - by rewrite list_lookup_insert_eq by lia.
    - apply Pin_tombstones. }
  destruct (Z.eqb_spec (BufferPoolManager.as_size_t (BufferPoolManager.cur_size_ s))
              (BufferPoolManager.pool_size_ s)); [| lia].
  apply bind_Ok in H as ([s2 f2] & Hsrc & H).
  apply bind_Ok in H as (p & _ & H).
  apply bind_Ok in H as (s3 & Herase & H).
  apply bind_Ok in H as (s4 & Hupd & H).
  apply update_page_metadata_inv in Hupd as [Hf ->].
  apply erase_found_inv in Herase as [_ ->].
  assert (BufferPoolManager.disk_manager_ s2
          = mkDisk (next_page_id (BufferPoolManager.disk_manager_ s) + 1)
              (contents (BufferPoolManager.disk_manager_ s))
              (events (BufferPoolManager.disk_manager_ s)
               ++ [AllocatePage (next_page_id (BufferPoolManager.disk_manager_ s))])) as Hd2.
  { destruct (BufferPoolManager.free_list_ s1) as [| f rest]; [| by simplify_eq/=].
    apply bind_Ok in Hsrc as ([r2 v2] & _ & ?). by simplify_eq/=. }
  simplify_eq/=. rewrite Hd2. simpl.
  repeat split; try done; [lia | by rewrite lookup_insert_eq | |].
  - by rewrite list_lookup_insert_eq by lia.
  - apply Pin_tombstones.
Qed.

Lemma NewPage_binds_fresh_page_witness :
  ∃ s',
    BufferPoolManager.NewPageImpl 0 fetch_example = Ok (s', Some (0, 0))
    ∧ 0 = next_page_id (BufferPoolManager.disk_manager_ fetch_example)
    ∧ next_page_id (BufferPoolManager.disk_manager_ s') = 0 + 1
    ∧ events (BufferPoolManager.disk_manager_ s')
      = events (BufferPoolManager.disk_manager_ fetch_example) ++ [AllocatePage 0]
    ∧ 0 ≤ 0
    ∧ BufferPoolManager.page_table_ s' !! 0 = Some 0
    ∧ BufferPoolManager.pages_ s' !! Z.to_nat 0 = Some (mkPage zero_bytes 0 1 false)
    ∧ (ClockReplacer.map (BufferPoolManager.replacer_ s') !! 0 = None
       ∨ 0 ∈ ClockReplacer.recent_pinned (BufferPoolManager.replacer_ s')).
Proof.
  eexists. split; [vm_compute; reflexivity |].
  apply (NewPage_binds_fresh_page 0 0 0 fetch_example).
  - vm_compute. discriminate.
  - vm_compute. reflexivity.
Defined.

(** X14: a NewPage or FetchPage that returns nullptr leaves the whole
    pool state as it was (for FetchPage this needs the free list not to
    contain -1, the value that stands for "no frame"). *)
Theorem failed_bind_changes_nothing
    (fuel : nat) (c : call) (s s' : BufferPoolManager.t) :
  -1 ∉ BufferPoolManager.free_list_ s →
  bind_frame fuel c s = Ok (s', None) →
  s' = s.
Proof.
  intros Hfree H. destruct c as [| page_id | | |]; simpl in H; try by simplify_eq.
  - destruct (BufferPoolManager.NewPageImpl fuel s) as [[s0 [[pid f] |]] | |] eqn:Hnew;
      simplify_eq.
    unfold BufferPoolManager.NewPageImpl in Hnew.
    apply bind_Ok in Hnew as ([[s1 f1] full] & Hguard & H).
    destruct full.
    + simplify_eq. destruct (_ && _) in Hguard; [| done].
      apply bind_Ok in Hguard as ([r1 v1] & Hv & ?). simplify_eq/=.
      destruct v1; [done |].
      apply Victim_inv in Hv as [(_ & -> & _) | (_ & f & ? & _)]; [| done].
      by destruct s.
    + unfold Disk.Allocate in H. simpl in H.
      destruct (_ <? _) in H.
      { destruct (BufferPoolManager.free_list_ s1); [done |].
        apply bind_Ok in H as (? & _ & ?). done. }
      destruct (_ =? _) in H; [| done].
      apply bind_Ok in H as ([s2 f2] & _ & H).
      apply bind_Ok in H as (p & _ & H).
      apply bind_Ok in H as (s3 & _ & H).
      apply bind_Ok in H as (s4 & _ & ?). done.
  - unfold BufferPoolManager.FetchPageImpl in H.
    destruct (BufferPoolManager.page_table_ s !! page_id) as [f |].
    { apply bind_Ok in H as (p & _ & H). apply bind_Ok in H as (ps & _ & ?). done. }
    apply bind_Ok in H as ([s1 rf] & Hsrc & H).
    destruct (Z.eqb_spec rf (-1)) as [-> | _].
    + simplify_eq.
      apply take_frame_inv in Hsrc
        as [(rest & Hfl & _) | [(_ & -> & _) | (r & _ & _ & f & ? & ? & _)]];
        [| done | by simplify_eq].
      exfalso. apply Hfree. rewrite Hfl. apply list_elem_of_here.
    + apply bind_Ok in H as (p & _ & H).
      apply bind_Ok in H as ([s2 b2] & _ & H).
      apply bind_Ok in H as (s3 & _ & H).
      apply bind_Ok in H as (s4 & _ & H).
      unfold Disk.Read in H. simpl in H.
      apply bind_Ok in H as (p4 & _ & H).
      apply bind_Ok in H as (ps & _ & ?). done.
Qed.

Lemma failed_bind_changes_nothing_witness :
  ∃ s', bind_frame 0 (FetchPage 7) pinned_example = Ok (s', None) ∧ s' = pinned_example.
Proof.
  eexists. split; [vm_compute; reflexivity |].
  apply (failed_bind_changes_nothing 0 (FetchPage 7) pinned_example).
  - simpl. apply not_elem_of_nil.
  - vm_compute. reflexivity.
Defined.

(** ** UnpinPage and DeletePage *)

Section unpin_delete.
Import BufferPoolManager.

(** Everything a call of UnpinPage can do. *)
Lemma UnpinPageImpl_inv (page_id : Z) (is_dirty : bool) (s s' : t) (b : bool) :
  UnpinPageImpl page_id is_dirty s = Ok (s', b) →
  (b = false ∧ s' = s ∧ (page_id = INVALID_PAGE_ID ∨ page_table_ s !! page_id = None))
  ∨ (∃ frame_id p r' free',
       b = true ∧ page_id ≠ INVALID_PAGE_ID
       ∧ page_table_ s !! page_id = Some frame_id
       ∧ 0 ≤ frame_id ∧ pages_ s !! Z.to_nat frame_id = Some p
       ∧ (if pin_count_ p - 1 =? 0
          then ClockReplacer.Unpin frame_id (replacer_ s) = Ok r'
               ∧ free' = free_list_ s ++ [frame_id]
          else r' = replacer_ s ∧ free' = free_list_ s)
       ∧ s' = mk (pool_size_ s)
                 (<[Z.to_nat frame_id :=
                      mkPage (data_ p) (page_id_ p) (pin_count_ p - 1)
                        (is_dirty_ p || is_dirty)]> (pages_ s))
                 r' free' (page_table_ s) (cur_size_ s)
                 (if is_dirty_ p || is_dirty
                  then Disk.Write page_id (data_ p) (disk_manager_ s)
                  else disk_manager_ s)).
Proof.
  unfold UnpinPageImpl. intros H.
  destruct (Z.eqb_spec page_id INVALID_PAGE_ID) as [? | Hvalid];
    [left; simplify_eq; auto |].
  destruct (page_table_ s !! page_id) as [frame_id |] eqn:Hpt;
    [| left; simplify_eq; auto].
  right.
  apply bind_Ok in H as (p & Hp & H). apply at_Ok in Hp as [Hf Hp].
  apply bind_Ok in H as (ps1 & Hps1 & H). apply set_at_inv in Hps1 as [Hin ->].
  apply bind_Ok in H as (s2 & Hs2 & H).
  apply bind_Ok in H as (ps2 & Hps2 & H). apply set_at_inv in Hps2 as [_ ->].
  apply bind_Ok in H as ([s3 b3] & Hflush & H). simplify_eq/=.
  set (p1 := mkPage (data_ p) (page_id_ p) (pin_count_ p - 1) (is_dirty_ p)) in *.
  set (p2 := mkPage (data_ p) (page_id_ p) (pin_count_ p - 1) (is_dirty_ p || is_dirty)) in *.
  assert (∃ r' free',
            (if pin_count_ p - 1 =? 0
             then ClockReplacer.Unpin frame_id (replacer_ s) = Ok r'
                  ∧ free' = free_list_ s ++ [frame_id]
             else r' = replacer_ s ∧ free' = free_list_ s)
            ∧ s2 = mk (pool_size_ s) (<[Z.to_nat frame_id := p1]> (pages_ s)) r' free'
                      (page_table_ s) (cur_size_ s) (disk_manager_ s))
    as (r' & free' & Hcase & ->).
  { destruct (pin_count_ p - 1 =? 0).
    - apply bind_Ok in Hs2 as (r' & Hr' & ?). simplify_eq/=. by exists r', (free_list_ s ++ [frame_id]).
    - simplify_eq/=. by exists (replacer_ s), (free_list_ s). }
  exists frame_id, p, r', free'. simpl in *. rewrite list_insert_insert_eq in Hflush.
  repeat split; try done.
  destruct (is_dirty_ p || is_dirty); [| by simplify_eq/=].
  unfold FlushPageImpl in Hflush. simpl in Hflush. rewrite Hpt in Hflush.
  rewrite (at_lookup _ _ p2) in Hflush;
    [| done | apply list_lookup_insert_eq; lia].
  by simplify_eq/=.
Qed.

(** Everything a call of DeletePage can do. *)
Lemma DeletePageImpl_inv (page_id : Z) (s s' : t) (b : bool) :
  DeletePageImpl page_id s = Ok (s', b) →
  s' = s
  ∨ (∃ frame_id,
       b = true ∧ page_table_ s !! page_id = Some frame_id
       ∧ 0 ≤ frame_id < Z.of_nat (length (pages_ s))
       ∧ s' = mk (pool_size_ s) (<[Z.to_nat frame_id := fresh_page]> (pages_ s))
                 (replacer_ s) (free_list_ s ++ [0])
                 (<[page_id := 0]> (delete page_id (page_table_ s)))
                 (cur_size_ s - 1) (disk_manager_ s)).
Proof.
  unfold DeletePageImpl. intros H.
  destruct (page_table_ s !! page_id) as [frame_id |] eqn:Hpt; [| left; by simplify_eq].
  apply bind_Ok in H as (p & _ & H).
  destruct (negb (pin_count_ p =? 0)); [left; by simplify_eq |].
  apply bind_Ok in H as (s1 & He & H). apply erase_found_inv in He as [_ ->].
  unfold reset_page_metadata in H. simpl in H.
  apply bind_Ok in H as (s2 & Hs2 & H).
  apply bind_Ok in Hs2 as (ps & Hps & ?). apply set_at_inv in Hps as [Hin ->].
  right. exists frame_id. by simplify_eq/=.
Qed.

End unpin_delete.

(** ** UnpinPage and the free list *)

(** C2: an UnpinPage that takes the pin count from 1 to 0 appends the
    frame to the free list and leaves the page table as it was, so the
    frame is in the free list and bound at once; any other successful
    UnpinPage leaves the free list alone.  Pool of size 1, NewPage();
    UnpinPage(0, false): frame 0 is eligible in the replacer, bound to
    page 0 and in the free list.  DeletePage(0) then appends frame 0 a
    second time.  The next NewPage() binds page 1 to frame 0 with pin
    count 1; the NewPage() after it, with page 1 still pinned in the
    only frame, does not return nullptr: it takes frame 0 from the free
    list again, drops page 1 from the page table and returns the same
    frame for page 2. *)
Theorem unpinned_frame_is_free_and_bound (fuel : nat) :
  (∀ s page_id is_dirty,
     match BufferPoolManager.page_table_ s !! page_id,
           BufferPoolManager.UnpinPageImpl page_id is_dirty s with
     | Some frame_id, Ok (s', true) =>
         BufferPoolManager.page_table_ s' = BufferPoolManager.page_table_ s
         ∧ match at_ (BufferPoolManager.pages_ s) frame_id with
           | Ok p =>
               if pin_count_ p =? 1
               then BufferPoolManager.free_list_ s'
                    = BufferPoolManager.free_list_ s ++ [frame_id]
                    ∧ ¬ free_xor_bound s' frame_id
               else BufferPoolManager.free_list_ s' = BufferPoolManager.free_list_ s
           | _ => True
           end
     | _, _ => True
     end)
  ∧ (λ s, (frame_header s 0,
           ClockReplacer.eligible (BufferPoolManager.replacer_ s) 0,
           BufferPoolManager.page_table_ s !! 0,
           BufferPoolManager.free_list_ s))
      <$> run fuel [NewPage; UnpinPage 0 false] (BufferPoolManager.new 1 Disk.new)
    = Ok (Some (0, 0, false), true, Some 0, [0])
  ∧ (s ← run fuel [NewPage; UnpinPage 0 false; DeletePage 0]
           (BufferPoolManager.new 1 Disk.new);
     '(s1, r1) ← BufferPoolManager.NewPageImpl fuel s;
     '(s2, r2) ← BufferPoolManager.NewPageImpl fuel s1;
     Ok (BufferPoolManager.free_list_ s,
         r1, frame_header s1 0, BufferPoolManager.page_table_ s1 !! 1,
         BufferPoolManager.free_list_ s1,
         r2, frame_header s2 0, BufferPoolManager.page_table_ s2 !! 1,
         BufferPoolManager.page_table_ s2 !! 2))
    = Ok ([0; 0],
          Some (1, 0), Some (1, 1, false), Some 0, [0],
          Some (2, 0), Some (2, 1, false), None, Some 0).
Proof.
  split; [| split; vm_compute; reflexivity].
  intros s page_id is_dirty.
  destruct (BufferPoolManager.page_table_ s !! page_id) as [frame_id |] eqn:Hpt; [| done].
  destruct (BufferPoolManager.UnpinPageImpl page_id is_dirty s) as [[s' [|]] | |] eqn:H;
    [| done..].
  apply UnpinPageImpl_inv in H
    as [(? & _) | (f & p & r' & free' & _ & _ & Hpt' & Hf & Hp & Hcase & ->)]; [done |].
  rewrite Hpt in Hpt'. injection Hpt' as <-.
  rewrite (at_lookup _ _ p Hf Hp). simpl. split; [done |].
  destruct (Z.eqb_spec (pin_count_ p) 1) as [Hpin | Hpin].
  - rewrite Hpin in Hcase. change (1 - 1 =? 0) with true in Hcase.
    destruct Hcase as [_ ->]. split; [done |].
    intros [_ Hboth]. apply Hboth. simpl. split.
    + apply elem_of_app. right. apply list_elem_of_here.
    + by exists page_id.
  - destruct (Z.eqb_spec (pin_count_ p - 1) 0) as [? | _]; [lia |].
    by destruct Hcase as [_ ->].
Qed.

(** X9: a page that is not resident is an ordinary failure for
    UnpinPage and FlushPage, which return false, and a trivial success
    for DeletePage, which returns true; none of the three changes the
    pool. *)
Theorem missing_page_is_refused (page_id : Z) (is_dirty : bool) (s : BufferPoolManager.t) :
  BufferPoolManager.page_table_ s !! page_id = None →
  BufferPoolManager.UnpinPageImpl page_id is_dirty s = Ok (s, false)
  ∧ BufferPoolManager.FlushPageImpl page_id s = Ok (s, false)
  ∧ BufferPoolManager.DeletePageImpl page_id s = Ok (s, true).
Proof.
  intros Hpt.
  unfold BufferPoolManager.UnpinPageImpl, BufferPoolManager.FlushPageImpl,
    BufferPoolManager.DeletePageImpl.
  rewrite Hpt. by destruct (page_id =? INVALID_PAGE_ID).
Qed.

Lemma missing_page_is_refused_witness :
  BufferPoolManager.UnpinPageImpl 8 true pinned_example = Ok (pinned_example, false)
  ∧ BufferPoolManager.FlushPageImpl 8 pinned_example = Ok (pinned_example, false)
  ∧ BufferPoolManager.DeletePageImpl 8 pinned_example = Ok (pinned_example, true).
Proof.
  apply (missing_page_is_refused 8 true pinned_example). reflexivity.
Defined.

(** X10: DeletePage on a resident page whose pin count is not 0 returns
    false and changes nothing: the page stays bound, its frame and the
    disk are untouched. *)
Theorem DeletePage_refuses_pinned_page
    (page_id frame_id : Z) (p : Page) (s : BufferPoolManager.t) :
  BufferPoolManager.page_table_ s !! page_id = Some frame_id →
  0 ≤ frame_id →
  BufferPoolManager.pages_ s !! Z.to_nat frame_id = Some p →
  pin_count_ p ≠ 0 →
  BufferPoolManager.DeletePageImpl page_id s = Ok (s, false).
Proof.
  intros Hpt Hf Hp Hpin. unfold BufferPoolManager.DeletePageImpl.
  rewrite Hpt, (at_lookup _ _ _ Hf Hp). simpl.
  by destruct (Z.eqb_spec (pin_count_ p) 0).
Qed.

Lemma DeletePage_refuses_pinned_page_witness :
  BufferPoolManager.DeletePageImpl 3 pinned_example = Ok (pinned_example, false).
Proof.
  apply (DeletePage_refuses_pinned_page 3 0 (mkPage [1; 2] 3 1 false) pinned_example).
  - reflexivity.
  - lia.
  - reflexivity.
  - simpl. lia.
Defined.

(** X15: UnpinPage writes a dirty page straight to the disk: when the
    call succeeds on a resident page that was dirty or is unpinned as
    dirty, the frame's bytes are the disk's bytes for the page
    afterwards, that write is the one call made to the disk, and the
    frame stays marked dirty. *)
Theorem UnpinPage_writes_dirty_page
    (page_id frame_id : Z) (is_dirty b : bool) (p : Page) (s s' : BufferPoolManager.t) :
  page_id ≠ INVALID_PAGE_ID →
  BufferPoolManager.page_table_ s !! page_id = Some frame_id →
  BufferPoolManager.pages_ s !! Z.to_nat frame_id = Some p →
  is_dirty_ p || is_dirty = true →
  BufferPoolManager.UnpinPageImpl page_id is_dirty s = Ok (s', b) →
  b = true
  ∧ contents (BufferPoolManager.disk_manager_ s') !! page_id = Some (data_ p)
  ∧ events (BufferPoolManager.disk_manager_ s')
    = events (BufferPoolManager.disk_manager_ s) ++ [WritePage page_id (data_ p)]
  ∧ BufferPoolManager.pages_ s' !! Z.to_nat frame_id
    = Some (mkPage (data_ p) (page_id_ p) (pin_count_ p - 1) true).
Proof.
  intros Hvalid Hpt Hp Hdirty H.
  apply UnpinPageImpl_inv in H
    as [(_ & _ & [? | Hnone]) | (f & p' & r' & free' & -> & _ & Hpt' & Hf & Hp' & _ & ->)];
    [done | by rewrite Hpt in Hnone |].
  rewrite Hpt in Hpt'. simplify_eq. rewrite Hdirty. simpl.
  rewrite lookup_insert_eq. repeat split; try done.
  apply list_lookup_insert_eq. by apply lookup_lt_Some in Hp.
Qed.

Lemma UnpinPage_writes_dirty_page_witness :
  ∃ s' b,
    BufferPoolManager.UnpinPageImpl 3 true unpin_example = Ok (s', b)
    ∧ b = true
    ∧ contents (BufferPoolManager.disk_manager_ s') !! 3 = Some (data_ unpin_example_page)
    ∧ events (BufferPoolManager.disk_manager_ s')
      = events (BufferPoolManager.disk_manager_ unpin_example)
        ++ [WritePage 3 (data_ unpin_example_page)]
    ∧ BufferPoolManager.pages_ s' !! Z.to_nat 0
      = Some (mkPage (data_ unpin_example_page) (page_id_ unpin_example_page)
                (pin_count_ unpin_example_page - 1) true).
Proof.
  do 2 eexists. split; [vm_compute; reflexivity |].
  apply (UnpinPage_writes_dirty_page 3 0 true true unpin_example_page unpin_example).
  - done.
  - reflexivity.
  - reflexivity.
  - reflexivity.
  - vm_compute. reflexivity.
Defined.

(** X16: UnpinPage on a resident page whose pin count is not 1 returns
    true, lowers the pin count by one (from 0 it goes to -1: there is
    no floor), ORs the dirty flag, and leaves the replacer, the free
    list and the page table untouched. *)
Theorem UnpinPage_away_from_zero
    (page_id frame_id : Z) (is_dirty : bool) (p : Page) (s : BufferPoolManager.t) :
  page_id ≠ INVALID_PAGE_ID →
  BufferPoolManager.page_table_ s !! page_id = Some frame_id →
  0 ≤ frame_id →
  BufferPoolManager.pages_ s !! Z.to_nat frame_id = Some p →
  pin_count_ p ≠ 1 →
  ∃ s',
    BufferPoolManager.UnpinPageImpl page_id is_dirty s = Ok (s', true)
    ∧ BufferPoolManager.pages_ s' !! Z.to_nat frame_id
      = Some (mkPage (data_ p) (page_id_ p) (pin_count_ p - 1) (is_dirty_ p || is_dirty))
    ∧ BufferPoolManager.replacer_ s' = BufferPoolManager.replacer_ s
    ∧ BufferPoolManager.free_list_ s' = BufferPoolManager.free_list_ s
    ∧ BufferPoolManager.page_table_ s' = BufferPoolManager.page_table_ s.
Proof.
  intros Hvalid Hpt Hf Hp Hpin.
  assert (Z.to_nat frame_id < length (BufferPoolManager.pages_ s))%nat as Hlen
    by (by apply lookup_lt_Some in Hp).
  unfold BufferPoolManager.UnpinPageImpl.
  destruct (Z.eqb_spec page_id INVALID_PAGE_ID) as [? | _]; [done |].
  rewrite Hpt, (at_lookup _ _ _ Hf Hp). simpl.
  rewrite (set_at_lookup _ _ _ p Hf Hp). simpl.
  destruct (Z.eqb_spec (pin_count_ p - 1) 0) as [? | _]; [lia |]. simpl.
  erewrite set_at_lookup; [| done | by apply list_lookup_insert_eq].
  simpl. rewrite list_insert_insert_eq.
  destruct (is_dirty_ p || is_dirty).
  - unfold BufferPoolManager.FlushPageImpl. simpl. rewrite Hpt.
    erewrite at_lookup; [| done | by apply list_lookup_insert_eq].
    simpl. eexists. split; [reflexivity |]. simpl.
    by rewrite list_lookup_insert_eq.
  - simpl. eexists. split; [reflexivity |]. simpl.
    by rewrite list_lookup_insert_eq.
Qed.

Lemma UnpinPage_away_from_zero_witness :
  ∃ s',
    BufferPoolManager.UnpinPageImpl 3 false fetch_example = Ok (s', true)
    ∧ BufferPoolManager.pages_ s' !! Z.to_nat 0
      = Some (mkPage (data_ (mkPage [1; 2] 3 0 false)) (page_id_ (mkPage [1; 2] 3 0 false))
                (pin_count_ (mkPage [1; 2] 3 0 false) - 1)
                (is_dirty_ (mkPage [1; 2] 3 0 false) || false))
    ∧ BufferPoolManager.replacer_ s' = BufferPoolManager.replacer_ fetch_example
    ∧ BufferPoolManager.free_list_ s' = BufferPoolManager.free_list_ fetch_example
    ∧ BufferPoolManager.page_table_ s' = BufferPoolManager.page_table_ fetch_example.
Proof.
  apply (UnpinPage_away_from_zero 3 0 false (mkPage [1; 2] 3 0 false) fetch_example).
  - done.
  - reflexivity.
  - lia.
  - reflexivity.
  - simpl. lia.
Defined.

(** X11: fetching a resident, clean page that someone still holds and
    unpinning it again as not dirty gives back exactly the pool state
    from before the fetch, disk included. *)
Theorem fetch_hit_then_unpin_restores
    (fuel : nat) (page_id frame_id : Z) (p : Page) (s : BufferPoolManager.t) :
  page_id ≠ INVALID_PAGE_ID →
  BufferPoolManager.page_table_ s !! page_id = Some frame_id →
  0 ≤ frame_id →
  BufferPoolManager.pages_ s !! Z.to_nat frame_id = Some p →
  pin_count_ p ≠ 0 →
  is_dirty_ p = false →
  run fuel [FetchPage page_id; UnpinPage page_id false] s = Ok s.
Proof.
  intros Hvalid Hpt Hf Hp Hpin Hclean.
  assert (Z.to_nat frame_id < length (BufferPoolManager.pages_ s))%nat as Hlen
    by (by apply lookup_lt_Some in Hp).
  simpl. unfold BufferPoolManager.FetchPageImpl.
  rewrite Hpt, (at_lookup _ _ _ Hf Hp). simpl.
  rewrite (set_at_lookup _ _ _ p Hf Hp). simpl.
  unfold BufferPoolManager.UnpinPageImpl.
  destruct (Z.eqb_spec page_id INVALID_PAGE_ID) as [? | _]; [done |].
  simpl. rewrite Hpt.
  erewrite at_lookup; [| done | by apply list_lookup_insert_eq].
  simpl. erewrite set_at_lookup; [| done | by apply list_lookup_insert_eq].
  simpl. replace (pin_count_ p + 1 - 1) with (pin_count_ p) by lia.
  destruct (Z.eqb_spec (pin_count_ p) 0) as [? | _]; [done |]. simpl.
  erewrite set_at_lookup; [| done | by rewrite list_insert_insert_eq; apply list_lookup_insert_eq].
  simpl. rewrite Hclean. simpl.
  rewrite !list_insert_insert_eq.
  rewrite list_insert_id; [by destruct s |].
  rewrite Hp. f_equal. destruct p. simpl in *. by subst.
Qed.

Lemma fetch_hit_then_unpin_restores_witness :
  run 0 [FetchPage 3; UnpinPage 3 false] pinned_example = Ok pinned_example.
Proof.
  apply (fetch_hit_then_unpin_restores 0 3 0 (mkPage [1; 2] 3 1 false) pinned_example).
  - done.
  - reflexivity.
  - lia.
  - reflexivity.
  - simpl. lia.
  - reflexivity.
Defined.

(** ** What every call keeps *)

Section kept.
Import BufferPoolManager.

Lemma pool_frame_refl (s : t) : pool_frame s s.
Proof. unfold pool_frame. split_and!; [done | done | done | lia | done]. Qed.

Lemma pool_frame_trans (s1 s2 s3 : t) :
  pool_frame s1 s2 → pool_frame s2 s3 → pool_frame s1 s3.
Proof.
  intros (Ha & Hb & Hc & Hd & He) (Ha' & Hb' & Hc' & Hd' & He').
  unfold pool_frame. rewrite Ha', Hb', Hc'. split_and!; [done | done | done | lia | auto].
Qed.

Lemma Pin_capacity (frame_id : Z) (r : ClockReplacer.t) :
  ClockReplacer.capacity (ClockReplacer.Pin frame_id r) = ClockReplacer.capacity r.
Proof. unfold ClockReplacer.Pin. by destruct (ClockReplacer.map r !! frame_id). Qed.

Lemma held_evicted (r r' : ClockReplacer.t) (v : option Z) (g : Z) :
  evicted r r' v → held r' g → held r g.
Proof.
  intros (f & _ & _ & _ & Hmap & _ & Hrp & _) [Hg Hn]. split; [| by rewrite <- Hrp].
  rewrite Hmap in Hg. destruct (decide (f = g)) as [-> | Hne].
  - rewrite lookup_delete_eq in Hg. by destruct Hg.
  - by rewrite lookup_delete_ne in Hg.
Qed.

Lemma binds_frames_insert (m : gmap Z Z) (page_id frame_id : Z) :
  frame_id ≠ -1 → binds_frames m → binds_frames (<[page_id := frame_id]> m).
Proof.
  intros Hf Hm k v. destruct (decide (page_id = k)) as [-> | Hne].
  - rewrite lookup_insert_eq. by intros [= <-].
  - rewrite lookup_insert_ne by done. apply Hm.
Qed.

Lemma binds_frames_delete (m : gmap Z Z) (page_id : Z) :
  binds_frames m → binds_frames (delete page_id m).
Proof.
  intros Hm k v. destruct (decide (page_id = k)) as [-> | Hne].
  - by rewrite lookup_delete_eq.
  - rewrite lookup_delete_ne by done. apply Hm.
Qed.

(** Taking a frame for a rebinding changes the free list or the
    replacer and nothing else. *)
Lemma take_frame_same (s s1 : t) (dflt frame_id : Z) :
  (∃ rest, free_list_ s = frame_id :: rest ∧ s1 = set_free_list rest s)
  ∨ (free_list_ s = [] ∧ s1 = s ∧ frame_id = dflt
     ∧ ClockReplacer.cur_size (replacer_ s) = 0)
  ∨ (∃ r, free_list_ s = [] ∧ s1 = set_replacer r s
          ∧ evicted (replacer_ s) r (Some frame_id)) →
  pool_size_ s1 = pool_size_ s ∧ pages_ s1 = pages_ s
  ∧ page_table_ s1 = page_table_ s ∧ disk_manager_ s1 = disk_manager_ s
  ∧ cur_size_ s1 = cur_size_ s
  ∧ ClockReplacer.capacity (replacer_ s1) = ClockReplacer.capacity (replacer_ s).
Proof.
  intros [(rest & Hfl & ->) | [(Hfl & -> & -> & _) | (r & Hfl & -> & Hev)]]; simpl.
  - by split_and!.
  - by split_and!.
  - destruct Hev as (f & [= <-] & Hf & _ & _ & _ & _ & Hcap & _).
    by split_and!.
Qed.

(** What the state after the taking guarantees when the state before
    was well kept. *)
Lemma take_frame_kept (s s1 : t) (dflt frame_id : Z) :
  well_kept s →
  (∃ rest, free_list_ s = frame_id :: rest ∧ s1 = set_free_list rest s)
  ∨ (free_list_ s = [] ∧ s1 = s ∧ frame_id = dflt
     ∧ ClockReplacer.cur_size (replacer_ s) = 0)
  ∨ (∃ r, free_list_ s = [] ∧ s1 = set_replacer r s
          ∧ evicted (replacer_ s) r (Some frame_id)) →
  (-1 ∉ free_list_ s1)
  ∧ (frame_id = dflt ∨ frame_id ≠ -1)
  ∧ (∀ g, held (replacer_ s1) g → g ∈ free_list_ s1 ∨ (g = frame_id ∧ frame_id ≠ -1)).
Proof.
  intros (Hcov & Hfree & Hpt) [(rest & Hfl & ->) | [(Hfl & -> & -> & _) | (r & Hfl & -> & Hev)]];
    simpl.
  - rewrite Hfl in Hfree. apply not_elem_of_cons in Hfree as [Hne Hrest].
    split_and!; [done | right; congruence |].
    intros g Hg. apply Hcov in Hg. rewrite Hfl in Hg.
    apply elem_of_cons in Hg as [-> | Hg]; [right | left]; [split |]; congruence.
  - split_and!; [done | by left |]. intros g Hg. left. by apply Hcov.
  - pose proof Hev as (f & [= <-] & Hf & _).
    split_and!; [done | by right |].
    intros g Hg. apply (held_evicted _ _ _ _ Hev) in Hg. left. by apply Hcov.
Qed.

(** Rebinding the taken frame: Pin in the replacer, a new binding in the
    page table. *)
Lemma rebind_kept (r : ClockReplacer.t) (free : list Z) (frame_id : Z) :
  (∀ g, held r g → g ∈ free ∨ (g = frame_id ∧ frame_id ≠ -1)) →
  ∀ g, held (ClockReplacer.Pin frame_id r) g → g ∈ free.
Proof.
  intros Hcov g Hg. apply Pin_held in Hg as [Hg Hne].
  apply Hcov in Hg as [? | [? _]]; done.
Qed.

Lemma FlushPageImpl_frame (page_id : Z) (s s' : t) (b : bool) :
  FlushPageImpl page_id s = Ok (s', b) → pool_frame s s'.
Proof.
  intros H. apply FlushPageImpl_inv in H as [(_ & -> & _) | (f & p & _ & _ & _ & _ & ->)].
  - apply pool_frame_refl.
  - unfold pool_frame, well_kept, free_list_covers_held. simpl.
    split_and!; [done | done | done | lia | done].
Qed.

Lemma FetchPageImpl_frame (fuel : nat) (page_id : Z) (s s' : t) (v : option Z) :
  FetchPageImpl fuel page_id s = Ok (s', v) → pool_frame s s'.
Proof.
  unfold FetchPageImpl. intros H.
  destruct (page_table_ s !! page_id) as [f |] eqn:Hpt.
  { apply bind_Ok in H as (p & _ & H).
    apply bind_Ok in H as (ps & Hps & H). apply set_at_inv in Hps as [_ ->].
    simplify_eq. unfold pool_frame, well_kept, free_list_covers_held. simpl.
    rewrite length_insert. split_and!; [done | done | done | lia | done]. }
  apply bind_Ok in H as ([s1 rf] & Hsrc & H).
  apply take_frame_inv in Hsrc.
  pose proof (take_frame_same s s1 (-1) rf Hsrc) as (Hps1 & Hpg1 & Hpt1 & Hd1 & _ & Hcap1).
  destruct (Z.eqb_spec rf (-1)) as [-> | Hrf].
  { simplify_eq. unfold pool_frame. rewrite Hps1, Hpg1, Hcap1, Hd1.
    split_and!; [done | done | done | lia |].
    intros Hk. pose proof (take_frame_kept s s' (-1) (-1) Hk Hsrc) as (Hfree & _ & Hcov).
    destruct Hk as (_ & _ & Hbind). split_and!; [| done | by rewrite Hpt1].
    intros g Hg. apply Hcov in Hg as [? | [_ ?]]; done. }
  apply bind_Ok in H as (p & _ & H).
  apply bind_Ok in H as ([s2 b2] & Hflush & H).
  apply bind_Ok in H as (s3 & Herase & H).
  apply bind_Ok in H as (s4 & Hupd & H).
  unfold Disk.Read in H. simpl in H.
  apply bind_Ok in H as (p4 & _ & H).
  apply bind_Ok in H as (ps & Hps & H). apply set_at_inv in Hps as [_ ->].
  apply update_page_metadata_inv in Hupd as [_ ->].
  apply erase_found_inv in Herase as [_ ->].
  assert (∃ d, next_page_id d = next_page_id (disk_manager_ s1) ∧ s2 = set_disk d s1)
    as (d & Hd & ->).
  { destruct (is_dirty_ p).
    - apply FlushPageImpl_inv in Hflush as [(_ & -> & _) | (f0 & p0 & _ & _ & _ & _ & ->)];
        [exists (disk_manager_ s1); by destruct s1 |].
      by exists (Disk.Write (page_id_ p) (data_ p0) (disk_manager_ s1)).
    - injection Hflush as <- _. exists (disk_manager_ s1). by destruct s1. }
  simplify_eq/=. unfold pool_frame. simpl.
  rewrite !length_insert, Pin_capacity, Hd, Hps1, Hpg1, Hcap1, Hd1.
  split_and!; [done | done | done | lia |].
  intros Hk. pose proof (take_frame_kept s s1 (-1) rf Hk Hsrc) as (Hfree & _ & Hcov).
  destruct Hk as (_ & _ & Hbind).
  split_and!; simpl; [| done |].
  - intros g Hg. simpl in Hg. by apply (rebind_kept _ _ rf Hcov).
  - rewrite Hpt1.
    apply binds_frames_insert; [done |]. apply binds_frames_insert; [done |].
    by apply binds_frames_delete.
Qed.

Lemma UnpinPageImpl_frame (page_id : Z) (is_dirty : bool) (s s' : t) (b : bool) :
  UnpinPageImpl page_id is_dirty s = Ok (s', b) → pool_frame s s'.
Proof.
  intros H. apply UnpinPageImpl_inv in H
    as [(_ & -> & _) | (f & p & r' & free' & _ & _ & Hpt & _ & _ & Hcase & ->)];
    [apply pool_frame_refl |].
  unfold pool_frame. simpl. rewrite length_insert.
  assert (ClockReplacer.capacity r' = ClockReplacer.capacity (replacer_ s)
          ∧ (∀ g, held r' g → held (replacer_ s) g ∨ g = f)
          ∧ (free' = free_list_ s ∨ free' = free_list_ s ++ [f])) as (Hcap & Hheld & Hfree).
  { destruct (pin_count_ p - 1 =? 0).
    - destruct Hcase as [Hr ->]. apply Unpin_inv in Hr as (? & _ & _ & ?). auto.
    - destruct Hcase as [-> ->]. auto. }
  split_and!; [done | done | done | by destruct (is_dirty_ p || is_dirty); simpl; lia |].
  intros (Hcov & Hno & Hbind). pose proof (Hbind _ _ Hpt) as Hf.
  split_and!; simpl; [| | done].
  - intros g Hg. destruct (pin_count_ p - 1 =? 0).
    + destruct Hcase as [_ ->]. apply elem_of_app.
      apply Hheld in Hg as [Hg | ->]; [left; by apply Hcov | right; apply list_elem_of_here].
    + destruct Hcase as [-> ->]. by apply Hcov.
  - destruct Hfree as [-> | ->]; [done |].
    rewrite elem_of_app, list_elem_of_singleton. intros [? | ?]; done.
Qed.

Lemma DeletePageImpl_frame (page_id : Z) (s s' : t) (b : bool) :
  DeletePageImpl page_id s = Ok (s', b) → pool_frame s s'.
Proof.
  intros H. apply DeletePageImpl_inv in H as [-> | (f & _ & _ & _ & ->)];
    [apply pool_frame_refl |].
  unfold pool_frame. simpl. rewrite length_insert.
  split_and!; [done | done | done | lia |].
  intros (Hcov & Hno & Hbind). split_and!; simpl.
  - intros g Hg. apply elem_of_app. left. by apply Hcov.
  - rewrite elem_of_app, list_elem_of_singleton. intros [? | ?]; done.
  - by apply binds_frames_insert; [| apply binds_frames_delete].
Qed.

(** The guard of NewPage: it may take a victim out of the replacer and
    changes nothing else. *)
Lemma NewPage_guard_inv (fuel : nat) (s s1 : t) (f1 : Z) (full : bool) :
  (if (as_size_t (cur_size_ s) =? pool_size_ s) && bool_decide (free_list_ s = []) then
     '(r, v) ← ClockReplacer.Victim fuel (replacer_ s);
     Ok (set_replacer r s, default 0 v, negb (bool_decide (is_Some v)))
   else Ok (s, 0, false)) = Ok (s1, f1, full) →
  f1 ≠ -1
  ∧ pool_size_ s1 = pool_size_ s ∧ pages_ s1 = pages_ s
  ∧ page_table_ s1 = page_table_ s ∧ disk_manager_ s1 = disk_manager_ s
  ∧ cur_size_ s1 = cur_size_ s ∧ free_list_ s1 = free_list_ s
  ∧ ClockReplacer.capacity (replacer_ s1) = ClockReplacer.capacity (replacer_ s)
  ∧ (∀ g, held (replacer_ s1) g → held (replacer_ s) g).
Proof.
  intros H. destruct (_ && _) in H; [| by simplify_eq].
  apply bind_Ok in H as ([r v] & Hv & H). simplify_eq/=.
  apply Victim_inv in Hv as [(-> & -> & _) | (_ & Hev)]; [by split_and! |].
  pose proof Hev as (f & -> & Hf & _ & _ & _ & _ & Hcap & _). simpl.
  split_and!; try done. intros g Hg. by apply (held_evicted _ _ _ _ Hev).
Qed.

Lemma NewPageImpl_frame (fuel : nat) (s s' : t) (v : option (Z * Z)) :
  NewPageImpl fuel s = Ok (s', v) → pool_frame s s'.
Proof.
  unfold NewPageImpl. intros H.
  apply bind_Ok in H as ([[s1 f1] full] & Hguard & H).
  apply NewPage_guard_inv in Hguard
    as (Hf1 & Hps1 & Hpg1 & Hpt1 & Hd1 & Hcs1 & Hfl1 & Hcap1 & Hheld1).
  assert (well_kept s → well_kept s1) as Hk1.
  { intros (Hcov & Hfree & Hbind). unfold well_kept, free_list_covers_held.
    rewrite Hfl1, Hpt1. split_and!; [| done | done].
    intros g Hg. by apply Hcov, Hheld1. }
  destruct full.
  { simplify_eq. unfold pool_frame. rewrite Hps1, Hpg1, Hcap1, Hd1.
    split_and!; [done | done | done | lia | done]. }
  unfold Disk.Allocate in H. simpl in H.
  destruct (as_size_t (cur_size_ s1) <? pool_size_ s1).
  { destruct (free_list_ s1) as [| f rest] eqn:Hfl; [done |].
    apply bind_Ok in H as (s2 & Hupd & H).
    apply update_page_metadata_inv in Hupd as [_ ->]. simplify_eq/=.
    unfold pool_frame. simpl. rewrite length_insert, Pin_capacity, Hps1, Hpg1, Hcap1, Hd1.
    split_and!; [done | done | done | lia |].
    intros Hk. apply Hk1 in Hk as (Hcov & Hfree & Hbind).
    rewrite Hfl in Hfree. apply not_elem_of_cons in Hfree as [Hne Hrest].
    split_and!; simpl; [| done | apply binds_frames_insert; [congruence | done]].
    intros g Hg. apply Pin_held in Hg as [Hg Hgf].
    apply Hcov in Hg. rewrite Hfl in Hg. by apply elem_of_cons in Hg as [? | ?]. }
  destruct (as_size_t (cur_size_ s1) =? pool_size_ s1).
  2: { simplify_eq. unfold pool_frame. simpl. rewrite Hps1, Hpg1, Hcap1, Hd1.
       split_and!; [done | done | done | lia |].
       intros Hk. apply Hk1 in Hk as (Hcov & Hfree & Hbind). by split_and!. }
  apply bind_Ok in H as ([s2 f2] & Hsrc & H).
  apply bind_Ok in H as (p & _ & H).
  apply bind_Ok in H as (s3 & Herase & H).
  apply bind_Ok in H as (s4 & Hupd & H).
  apply update_page_metadata_inv in Hupd as [_ ->].
  apply erase_found_inv in Herase as [_ ->].
  set (sa := set_disk
               (mkDisk (next_page_id (disk_manager_ s1) + 1) (contents (disk_manager_ s1))
                  (events (disk_manager_ s1)
                   ++ [AllocatePage (next_page_id (disk_manager_ s1))])) s1) in *.
  apply (take_frame_inv fuel f1 sa s2 f2) in Hsrc.
  pose proof (take_frame_same _ _ _ _ Hsrc) as (Hps2 & Hpg2 & Hpt2 & Hd2 & _ & Hcap2).
  simpl in *. simplify_eq/=. unfold pool_frame. simpl.
  rewrite length_insert, Pin_capacity, Hps2, Hpg2, Hcap2, Hd2, Hps1, Hpg1, Hcap1, Hd1. simpl.
  split_and!; [done | done | done | lia |].
  intros Hk. apply Hk1 in Hk.
  assert (well_kept sa) as Hk' by (by destruct Hk).
  pose proof (take_frame_kept _ _ _ _ Hk' Hsrc) as (Hfree & Hf2 & Hcov).
  destruct Hk as (_ & _ & Hbind).
  split_and!; simpl; [| done |].
  - intros g Hg. by apply (rebind_kept _ _ f2 Hcov).
  - rewrite Hpt2. simpl. apply binds_frames_insert; [by destruct Hf2; congruence |].
    by apply binds_frames_delete.
Qed.

Lemma step_frame (fuel : nat) (c : call) (s s' : t) :
  step fuel c s = Ok s' → pool_frame s s'.
Proof.
  destruct c as [| p | p d | p | p]; simpl.
  - destruct (NewPageImpl fuel s) as [[s0 v] | |] eqn:H; simpl; [| done..].
    intros [= <-]. by apply NewPageImpl_frame in H.
  - destruct (FetchPageImpl fuel p s) as [[s0 v] | |] eqn:H; simpl; [| done..].
    intros [= <-]. by apply FetchPageImpl_frame in H.
  - destruct (UnpinPageImpl p d s) as [[s0 v] | |] eqn:H; simpl; [| done..].
    intros [= <-]. by apply UnpinPageImpl_frame in H.
  - destruct (FlushPageImpl p s) as [[s0 v] | |] eqn:H; simpl; [| done..].
    intros [= <-]. by apply FlushPageImpl_frame in H.
  - destruct (DeletePageImpl p s) as [[s0 v] | |] eqn:H; simpl; [| done..].
    intros [= <-]. by apply DeletePageImpl_frame in H.
Qed.

Lemma run_frame (fuel : nat) (cs : list call) :
  ∀ s s', run fuel cs s = Ok s' → pool_frame s s'.
Proof.
  induction cs as [| c cs IH]; intros s s' H; simpl in H.
  - simplify_eq. apply pool_frame_refl.
  - apply bind_Ok in H as (s1 & Hstep & H).
    apply step_frame in Hstep. apply IH in H. by eapply pool_frame_trans.
Qed.


End kept.

(** X17: no sequence of calls resizes the pool: whatever calls are made
    and whatever they return, the pool size, the number of frames and
    the replacer's capacity stay what they were, and the disk's next
    page id never goes down. *)
Theorem calls_keep_pool_shape
    (fuel : nat) (cs : list call) (s s' : BufferPoolManager.t) :
  run fuel cs s = Ok s' →
  BufferPoolManager.pool_size_ s' = BufferPoolManager.pool_size_ s
  ∧ length (BufferPoolManager.pages_ s') = length (BufferPoolManager.pages_ s)
  ∧ ClockReplacer.capacity (BufferPoolManager.replacer_ s')
    = ClockReplacer.capacity (BufferPoolManager.replacer_ s)
  ∧ next_page_id (BufferPoolManager.disk_manager_ s)
    ≤ next_page_id (BufferPoolManager.disk_manager_ s').
Proof.
  intros H. apply run_frame in H as (? & ? & ? & ? & _). by split_and!.
Qed.

Lemma calls_keep_pool_shape_witness :
  ∃ s',
    run 0 slot_reuse_calls (BufferPoolManager.new 2 Disk.new) = Ok s'
    ∧ (BufferPoolManager.page_table_ s' !! 7,
       BufferPoolManager.free_list_ s',
       next_page_id (BufferPoolManager.disk_manager_ s')) = (Some 0, [1; 0], 2)
    ∧ BufferPoolManager.pool_size_ s'
      = BufferPoolManager.pool_size_ (BufferPoolManager.new 2 Disk.new)
    ∧ length (BufferPoolManager.pages_ s')
      = length (BufferPoolManager.pages_ (BufferPoolManager.new 2 Disk.new))
    ∧ ClockReplacer.capacity (BufferPoolManager.replacer_ s')
      = ClockReplacer.capacity
          (BufferPoolManager.replacer_ (BufferPoolManager.new 2 Disk.new))
    ∧ next_page_id (BufferPoolManager.disk_manager_ (BufferPoolManager.new 2 Disk.new))
      ≤ next_page_id (BufferPoolManager.disk_manager_ s').
Proof.
  eexists. split; [vm_compute; reflexivity |].
  split; [vm_compute; reflexivity |].
  apply (calls_keep_pool_shape 0 slot_reuse_calls (BufferPoolManager.new 2 Disk.new)).
  vm_compute. reflexivity.
Defined.



(** ** FlushAllPages *)

Section flush_all.
Import BufferPoolManager.

Lemma writes_Write (page_id : Z) (bytes : list Z) (d : DiskManager) :
  Disk.writes (Disk.Write page_id bytes d) = Disk.writes d ++ [(page_id, bytes)].
Proof. unfold Disk.writes. simpl. by rewrite omap_app. Qed.

Lemma FlushAllPagesImpl_spec (order : list Z) :
  ∀ s,
    (∀ page_id, page_id ∈ order →
       ∃ frame_id p, page_table_ s !! page_id = Some frame_id
                     ∧ 0 ≤ frame_id ∧ pages_ s !! Z.to_nat frame_id = Some p) →
    ∃ s',
      FlushAllPagesImpl order s = Ok s'
      ∧ s' = set_disk (disk_manager_ s') s
      ∧ next_page_id (disk_manager_ s') = next_page_id (disk_manager_ s)
      ∧ (Disk.writes (disk_manager_ s')).*1 = (Disk.writes (disk_manager_ s)).*1 ++ order
      ∧ (∀ page_id frame_id p,
           page_id ∈ order →
           page_table_ s !! page_id = Some frame_id →
           pages_ s !! Z.to_nat frame_id = Some p →
           contents (disk_manager_ s') !! page_id = Some (data_ p))
      ∧ (∀ page_id, page_id ∉ order →
           contents (disk_manager_ s') !! page_id = contents (disk_manager_ s) !! page_id).
Proof.
  induction order as [| page_id rest IH]; intros s Hres.
  - exists s. simpl. split_and!; try done.
    + by destruct s.
    + by rewrite app_nil_r.
    + intros q f p Hq. by apply not_elem_of_nil in Hq.
  - destruct (Hres page_id (list_elem_of_here _ _)) as (f & p & Hpt & Hf & Hp).
    simpl. unfold FlushPageImpl at 1. rewrite Hpt, (at_lookup _ _ _ Hf Hp). simpl.
    set (s1 := set_disk (Disk.Write page_id (data_ p) (disk_manager_ s)) s).
    destruct (IH s1) as (s' & Hrun & Hs' & Hnext & Hw & Hin & Hout).
    { intros q Hq. apply Hres. by apply list_elem_of_further. }
    exists s'. split_and!.
    + done.
    + rewrite Hs'. by destruct s.
    + by rewrite Hnext.
    + rewrite Hw. simpl. rewrite writes_Write, fmap_app. simpl.
      by rewrite <- app_assoc.
    + intros q f' p' Hq Hptq Hpq.
      destruct (decide (q ∈ rest)) as [Hr | Hr]; [by apply (Hin q f' p') |].
      apply elem_of_cons in Hq as [-> | ?]; [| done].
      rewrite Hout by done. simpl. rewrite Hpt in Hptq. simplify_eq.
      by rewrite lookup_insert_eq.
    + intros q Hq. apply not_elem_of_cons in Hq as [Hne Hr].
      rewrite Hout by done. simpl. by rewrite lookup_insert_ne.
Qed.

Lemma iteration_order_resident (s : t) (order : list Z) (page_id : Z) :
  iteration_order s order → page_id ∈ order ↔ is_Some (page_table_ s !! page_id).
Proof.
  unfold iteration_order. intros ->. rewrite list_elem_of_fmap. split.
  - intros ([k v] & -> & Hkv). apply elem_of_map_to_list in Hkv. eauto.
  - intros [v Hv]. exists (page_id, v). split; [done |]. by apply elem_of_map_to_list.
Qed.

End flush_all.

(** X19: FlushAllPages, in whatever order the page table is visited,
    writes every resident page exactly once with the bytes of the frame
    it is bound to (provided every binding names a frame of the pool):
    the page ids written are the visited keys in order, afterwards the
    disk holds each resident page's frame bytes, pages that are not
    resident keep their disk bytes, and nothing but the disk changes. *)
Theorem FlushAllPages_writes_every_resident_page
    (s : BufferPoolManager.t) (order : list Z) :
  iteration_order s order →
  (∀ page_id frame_id,
     BufferPoolManager.page_table_ s !! page_id = Some frame_id →
     0 ≤ frame_id ∧ is_Some (BufferPoolManager.pages_ s !! Z.to_nat frame_id)) →
  ∃ s',
    FlushAllPagesImpl order s = Ok s'
    ∧ s' = BufferPoolManager.set_disk (BufferPoolManager.disk_manager_ s') s
    ∧ next_page_id (BufferPoolManager.disk_manager_ s')
      = next_page_id (BufferPoolManager.disk_manager_ s)
    ∧ (Disk.writes (BufferPoolManager.disk_manager_ s')).*1
      = (Disk.writes (BufferPoolManager.disk_manager_ s)).*1 ++ order
    ∧ NoDup order
    ∧ (∀ page_id frame_id p,
         BufferPoolManager.page_table_ s !! page_id = Some frame_id →
         BufferPoolManager.pages_ s !! Z.to_nat frame_id = Some p →
         contents (BufferPoolManager.disk_manager_ s') !! page_id = Some (data_ p))
    ∧ (∀ page_id,
         BufferPoolManager.page_table_ s !! page_id = None →
         contents (BufferPoolManager.disk_manager_ s') !! page_id
         = contents (BufferPoolManager.disk_manager_ s) !! page_id).
Proof.
  intros Horder Hrange.
  destruct (FlushAllPagesImpl_spec order s) as (s' & Hrun & Hs' & Hnext & Hw & Hin & Hout).
  { intros q Hq. apply (iteration_order_resident s order q Horder) in Hq as [f Hf].
    destruct (Hrange q f Hf) as [Hpos [p Hp]]. eauto. }
  exists s'. split_and!; try done.
  - unfold iteration_order in Horder. rewrite Horder. apply NoDup_fst_map_to_list.
  - intros q f p Hq Hp. apply (Hin q f p); [| done..].
    apply (iteration_order_resident s order q Horder). eauto.
  - intros q Hq. apply Hout. intros Hin'.
    apply (iteration_order_resident s order q Horder) in Hin' as [f Hf]. congruence.
Qed.

Lemma FlushAllPages_writes_every_resident_page_witness :
  ∃ s',
    FlushAllPagesImpl [3] pinned_example = Ok s'
    ∧ s' = BufferPoolManager.set_disk (BufferPoolManager.disk_manager_ s') pinned_example
    ∧ next_page_id (BufferPoolManager.disk_manager_ s')
      = next_page_id (BufferPoolManager.disk_manager_ pinned_example)
    ∧ (Disk.writes (BufferPoolManager.disk_manager_ s')).*1
      = (Disk.writes (BufferPoolManager.disk_manager_ pinned_example)).*1 ++ [3]
    ∧ NoDup [3]
    ∧ (∀ page_id frame_id p,
         BufferPoolManager.page_table_ pinned_example !! page_id = Some frame_id →
         BufferPoolManager.pages_ pinned_example !! Z.to_nat frame_id = Some p →
         contents (BufferPoolManager.disk_manager_ s') !! page_id = Some (data_ p))
    ∧ (∀ page_id,
         BufferPoolManager.page_table_ pinned_example !! page_id = None →
         contents (BufferPoolManager.disk_manager_ s') !! page_id
         = contents (BufferPoolManager.disk_manager_ pinned_example) !! page_id).
Proof.
  apply (FlushAllPages_writes_every_resident_page pinned_example [3]).
  - unfold iteration_order. simpl. by rewrite map_to_list_singleton.
  - intros page_id frame_id Hpt. simpl in Hpt.
    apply lookup_singleton_Some in Hpt as [_ <-]. split; [lia | by eexists].
Defined.

(** ** DeletePage on an unpinned page *)

(** DeletePage on a resident page with pin count 0 returns true
    and resets the page's frame to the unbound state (sentinel page id,
    pin count 0, clear dirty flag, zero bytes) without writing it back,
    even if it was dirty; it lowers the bound count by one, appends the
    value 0 to the free list, leaves the page id in the page table bound
    to frame 0, and does not touch the replacer or the disk. *)
Theorem DeletePage_resets_unpinned_frame
    (page_id frame_id : Z) (p : Page) (s : BufferPoolManager.t) :
  BufferPoolManager.page_table_ s !! page_id = Some frame_id →
  0 ≤ frame_id →
  BufferPoolManager.pages_ s !! Z.to_nat frame_id = Some p →
  pin_count_ p = 0 →
  BufferPoolManager.DeletePageImpl page_id s
  = Ok (BufferPoolManager.mk (BufferPoolManager.pool_size_ s)
          (<[Z.to_nat frame_id := fresh_page]> (BufferPoolManager.pages_ s))
          (BufferPoolManager.replacer_ s)
          (BufferPoolManager.free_list_ s ++ [0])
          (<[page_id := 0]> (delete page_id (BufferPoolManager.page_table_ s)))
          (BufferPoolManager.cur_size_ s - 1)
          (BufferPoolManager.disk_manager_ s),
        true).
Proof.
  intros Hpt Hf Hp Hpin. unfold BufferPoolManager.DeletePageImpl.
  rewrite Hpt, (at_lookup _ _ _ Hf Hp). simpl. rewrite Hpin. simpl.
  unfold BufferPoolManager.erase_found. rewrite Hpt. simpl.
  unfold BufferPoolManager.reset_page_metadata. simpl.
  by rewrite (set_at_lookup _ _ _ p Hf Hp).
Qed.

Lemma DeletePage_resets_unpinned_frame_witness :
  BufferPoolManager.DeletePageImpl 3 delete_example
  = Ok (BufferPoolManager.mk (BufferPoolManager.pool_size_ delete_example)
          (<[Z.to_nat 0 := fresh_page]> (BufferPoolManager.pages_ delete_example))
          (BufferPoolManager.replacer_ delete_example)
          (BufferPoolManager.free_list_ delete_example ++ [0])
          (<[3 := 0]> (delete 3 (BufferPoolManager.page_table_ delete_example)))
          (BufferPoolManager.cur_size_ delete_example - 1)
          (BufferPoolManager.disk_manager_ delete_example),
        true).
Proof.
  apply (DeletePage_resets_unpinned_frame 3 0 (mkPage [1; 2] 3 0 true) delete_example).
  - reflexivity.
  - lia.
  - reflexivity.
  - reflexivity.
Defined.

(** ** First unpinned, first evicted *)

Section first_in.
Import ClockReplacer.

Lemma Unpin_new_first (n : nat) (first : Z) (r : t) :
  first ≠ -1 → first ≤ Z.of_nat n →
  Unpin first (new n) = Ok r → first_in_ring first r.
Proof.
  intros Hne Hle H. unfold Unpin in H. simpl in H.
  destruct (Z.ltb_spec (Z.of_nat n) first); [lia |].
  rewrite lookup_empty in H.
  apply bind_Ok in H as (slot & Hslot & H).
  apply bind_Ok in H as (bs & Hbs & H). apply set_at_inv in Hbs as [Hin ->].
  apply bind_Ok in H as (rbs & Hrbs & H). apply set_at_inv in Hrbs as [Hin' ->].
  simplify_eq/=. rewrite length_replicate in Hin.
  destruct n as [| n]; [lia |].
  unfold find_next_available in Hslot. simpl capacity in Hslot.
  rewrite Nat2Z.id in Hslot. simpl in Hslot.
  rewrite Z.rem_0_l in Hslot by lia. simpl in Hslot. simplify_eq.
  unfold first_in_ring. simpl. rewrite lookup_insert_eq. split_and!; try done; lia.
Qed.

Lemma Unpin_keeps_first (first g : Z) (r r' : t) :
  first ≠ -1 → first_in_ring first r → Unpin g r = Ok r' → first_in_ring first r'.
Proof.
  intros Hne (Hhand & Hrp & Hcap & Hcs & Hb & Hrb & Hmap) H. unfold Unpin in H.
  destruct (capacity r <? g); [by simplify_eq |].
  destruct (map r !! g) as [slot |] eqn:Hg.
  { rewrite Hrp in H. rewrite bool_decide_eq_false_2 in H by apply not_elem_of_empty.
    by simplify_eq. }
  apply bind_Ok in H as (slot & Hslot & H).
  apply bind_Ok in H as (bs & Hbs & H). apply set_at_inv in Hbs as [Hin ->].
  apply bind_Ok in H as (rbs & Hrbs & H). apply set_at_inv in Hrbs as [Hin' ->].
  simplify_eq/=.
  unfold find_next_available in Hslot.
  apply find_next_available_from_sound in Hslot as [-> | (_ & b & Hslotb & Hempty)];
    [lia | | lia | done | done].
  assert (Z.to_nat slot ≠ 0%nat) as Hslot0.
  { intros Heq. rewrite Heq, Hb in Hslotb. simplify_eq.
    destruct Hempty as [? | Hin'']; [done |].
    rewrite Hrp in Hin''. by apply not_elem_of_empty in Hin''. }
  unfold first_in_ring. simpl.
  rewrite !list_lookup_insert_ne by done.
  split_and!; try done; [lia |].
  destruct (decide (g = first)) as [-> | Hgf].
  - by rewrite lookup_insert_eq.
  - by rewrite lookup_insert_ne.
Qed.

Lemma Unpin_all_keeps_first (first : Z) (frames : list Z) :
  ∀ r r', first ≠ -1 → first_in_ring first r → Unpin_all frames r = Ok r' →
          first_in_ring first r'.
Proof.
  induction frames as [| g rest IH]; intros r r' Hne Hr H; simpl in H.
  - by simplify_eq.
  - apply bind_Ok in H as (r1 & Hg & H).
    apply (Unpin_keeps_first first g r r1 Hne Hr) in Hg. by apply (IH r1).
Qed.

End first_in.

(** X20: as long as only Unpin is called on a new replacer, the frame
    that was unpinned first is the first victim: after any run of Unpin
    calls that all return, victim() returns the first frame of the run,
    in a single step of the sweep, however many frames were unpinned
    after it and however often. *)
Theorem first_unpinned_is_first_victim
    (n fuel : nat) (first : Z) (frames : list Z) (r : ClockReplacer.t) :
  first ≠ -1 →
  first ≤ Z.of_nat n →
  Unpin_all (first :: frames) (ClockReplacer.new n) = Ok r →
  ∃ r', ClockReplacer.Victim (S fuel) r = Ok (r', Some first).
Proof.
  intros Hne Hle H. simpl in H.
  apply bind_Ok in H as (r1 & Hfirst & H).
  apply Unpin_new_first in Hfirst; [| done..].
  apply (Unpin_all_keeps_first first frames r1 r Hne Hfirst) in H
    as (Hhand & Hrp & Hcap & Hcs & Hb & Hrb & [slot Hmap]).
  unfold ClockReplacer.Victim.
  destruct (Z.eqb_spec (ClockReplacer.cur_size r) 0); [lia |].
  rewrite Victim_loop_unfold.
  destruct (Z.ltb_spec 0 (ClockReplacer.cur_size r)); [| lia].
  destruct (Z.eqb_spec (ClockReplacer.capacity r) 0); [lia |].
  rewrite Hhand, Z.rem_0_l by lia. cbv zeta.
  rewrite (at_lookup (ClockReplacer.buckets r) 0 first); [| lia | exact Hb]. simpl.
  destruct (Z.eqb_spec first (-1)); [done |].
  rewrite Hrp, bool_decide_eq_false_2 by apply not_elem_of_empty. simpl.
  rewrite (at_lookup (ClockReplacer.ref_bits r) 0 0); [| lia | exact Hrb]. simpl.
  rewrite (set_at_lookup (ClockReplacer.buckets r) 0 (-1) first); [| lia | exact Hb]. simpl.
  rewrite Hmap. by eexists.
Qed.

Lemma first_unpinned_is_first_victim_witness :
  ∃ r', ClockReplacer.Victim 1 unpin_example_replacer = Ok (r', Some 0).
Proof.
  apply (first_unpinned_is_first_victim 2 0 0 [] unpin_example_replacer).
  - lia.
  - lia.
  - vm_compute. reflexivity.
Defined.
